(** * X.renderer: a shallow embedding of xtk/visualization/renderer.js

    The renderer is a JavaScript class whose methods mutate the fields of
    [this], allocate and mutate heap objects, throw exceptions and talk to
    collaborators that live outside the file (the DOM, the WebGL context, the
    camera, the matrix helper).  The embedding below keeps that shape:

    - a state-and-exception monad [M] over a [State] made of the renderer's
      fields, the JavaScript heap holding the caller's scene objects, and the
      log of every call issued to a collaborator;
    - the collaborators as an [Env] of reply functions: what they answer may
      depend on everything the renderer has asked so far;
    - one monadic definition per method of the source, statement by
      statement. *)

From Stdlib Require Import ZArith QArith Qround List String Ascii Lia.
From stdpp Require Import base option list gmap strings.

Local Open Scope string_scope.
Local Open Scope list_scope.
Local Open Scope Z_scope.

(** ** JavaScript values *)

(** A JavaScript number.  Arithmetic on it is idealised as exact rational
    arithmetic, except for the object counter [_id], an integer whose
    increment is modelled with the rounding of IEEE doubles (see [incr]). *)
Abbreviation number := Q.

(** References to heap objects, DOM elements, WebGL contexts and cameras. *)
Abbreviation loc := nat.
Abbreviation Element := nat.
Abbreviation GLContext := nat.
Abbreviation Camera := nat.

(** The values a WebGL call takes and returns, and the values of the fields
    the constructor never declares ([_shaderProgram] and the two attribute
    locations start out [undefined]). *)
Inductive jsval :=
| undefined
| null
| JBool (b : bool)
| JNum (n : Z)
| JObj (id : nat).

#[global] Instance jsval_eq_dec : EqDecision jsval.
Proof. solve_decision. Defined.

(** JavaScript truthiness, as used by [!v]. *)
Definition truthy (v : jsval) : bool :=
  match v with
  | undefined | null => false
  | JBool b => b
  | JNum n => negb (n =? 0)
  | JObj _ => true
  end.

(** Exceptions: [X.exception] with its message, the iterator protocol's
    [goog.iter.StopIteration], any other JavaScript error (a [TypeError], or
    whatever a collaborator throws), and [OutOfFuel], which is not a
    JavaScript exception but the model's mark for a loop that has not
    finished within its fuel; [addObject_never_OutOfFuel] shows it never
    escapes. *)
Inductive exn :=
| X_exception (msg : string)
| StopIteration
| Error (msg : string)
| OutOfFuel.

#[global] Instance exn_eq_dec : EqDecision exn.
Proof. solve_decision. Defined.

Definition LF : string := String (ascii_of_nat 10) EmptyString.

(** The string an exception concatenates to: ['...' + e]. *)
Definition exn_toString (e : exn) : string :=
  match e with
  | X_exception msg => msg
  | StopIteration => "StopIteration"
  | Error msg => msg
  | OutOfFuel => "OutOfFuel"
  end.

(** ** goog.math: vectors and matrices (Closure Library) *)

Record Vec2 := goog_math_Vec2 { vec2_x : number; vec2_y : number }.
Record Vec3 := goog_math_Vec3 { vec_x : number; vec_y : number; vec_z : number }.

(** [goog.math.Matrix]: a rectangular array of numbers, row by row. *)
Abbreviation Matrix := (list (list Q)).

Definition Matrix_height (m : Matrix) : nat := length m.
Definition Matrix_width (m : Matrix) : nat := length (List.hd [] m).

(** [getValueAt(i, j)]: the entry of row [i] and column [j], [null] out of
    bounds. *)
Definition getValueAt (m : Matrix) (i j : nat) : option number :=
  row ← m !! i; row !! j.

(** [ToNumber] on the result of [getValueAt]: [null] counts as [0] in
    arithmetic. *)
Definition ToNumber (v : option number) : number := default 0%Q v.

Definition createIdentityMatrix (n : nat) : Matrix :=
  List.map (fun i => List.map (fun j => if Nat.eqb i j then 1%Q else 0%Q) (seq 0 n))
           (seq 0 n).

(** [matrixMultiply_]: entry [(i, j)] of the product is the sum over [k] of
    [this(i, k) * m(k, j)]. *)
Definition matrixMultiply_ (this m : Matrix) : Matrix :=
  List.map (fun i =>
    List.map (fun j =>
      fold_left (fun acc k =>
        (acc + ToNumber (getValueAt this i k) * ToNumber (getValueAt m k j))%Q)
        (seq 0 (Matrix_width this)) 0%Q)
      (seq 0 (Matrix_width m)))
    (seq 0 (Matrix_height this)).

(** [goog.math.Matrix.prototype.multiply] with a matrix argument: it throws
    when the sizes do not fit and otherwise RETURNS the product as a new
    matrix; the receiver is left as it was. *)
Definition Matrix_multiply (this m : Matrix) : exn + Matrix :=
  if Nat.eqb (Matrix_width this) (Matrix_height m)
  then inr (matrixMultiply_ this m)
  else inl (Error "Invalid matrices for multiplication.").

(** [Math.round]: the nearest integer, halves rounded up. *)
Definition Math_round (q : number) : number := inject_Z (Qfloor (q + (1 # 2))%Q).

(** ** Scene objects on the heap *)

(** Modelled from the spec: X.color is not under src/.  A color is a
    4-vector (r, g, b, alpha) and the three-argument constructor used by the
    renderer, [new X.color(1, 1, 1)], gives the opaque color. *)
Record X_color := mk_color { red : number; green : number; blue : number; alpha : number }.

Definition new_X_color (r g b : number) : X_color := mk_color r g b 1%Q.

(** An [X.object]: its object-level color ([null] when none was set) and
    references to its [X.points] and [X.colors] containers. *)
Record X_object := mk_object {
  object_color : option X_color;
  object_points : loc;
  object_colors : loc
}.

(** What a heap cell holds: a scene object, a container of points, a
    container of colors, or some other JavaScript object. *)
Inductive cell :=
| CObject (o : X_object)
| CPoints (ps : list Vec3)
| CColors (cs : list X_color)
| COther.

(** Modelled from the spec: X.points and X.colors are not under src/; they
    are ordered sequences with [count()] their length and [flatten()] the
    concatenation of their elements' components, 3 per point and 4 per
    color. *)
Definition points_flatten (ps : list Vec3) : list number :=
  List.concat (List.map (fun p => [vec_x p; vec_y p; vec_z p]) ps).

Definition colors_flatten (cs : list X_color) : list number :=
  List.concat (List.map (fun c => [red c; green c; blue c; alpha c]) cs).

(** [new Float32Array(l)]: the conversion to 32-bit floats is not modelled,
    the array holds the numbers of [l] in order. *)
Definition Float32Array (l : list number) : list number := l.

(** Modelled from the spec: X.buffer is not under src/; it wraps a WebGL
    buffer with its number of items and the number of components per item. *)
Record X_buffer := new_X_buffer {
  glBuffer : jsval;
  itemCount : nat;
  itemSize : nat
}.

(** ** goog.structs.Map (Closure Library)

    Keys are kept in insertion order: [set] on a present key replaces the
    value in place, on an absent key it appends. *)
Abbreviation Map V := (list (Z * V)).

Fixpoint Map_get {V} (m : Map V) (k : Z) : option V :=
  match m with
  | [] => None
  | (k', v) :: m' => if k =? k' then Some v else Map_get m' k
  end.

Definition Map_containsKey {V} (m : Map V) (k : Z) : bool :=
  bool_decide (is_Some (Map_get m k)).

Fixpoint Map_set {V} (m : Map V) (k : Z) (v : V) : Map V :=
  match m with
  | [] => [(k, v)]
  | (k', v') :: m' => if k =? k' then (k, v) :: m' else (k', v') :: Map_set m' k v
  end.

Definition Map_getKeys {V} (m : Map V) : list Z := List.map fst m.

(** ** The collaborators *)

(** The WebGL constants the renderer names. *)
Inductive glenum :=
| DEPTH_TEST | LEQUAL | FRAGMENT_SHADER | VERTEX_SHADER | COMPILE_STATUS
| LINK_STATUS | ARRAY_BUFFER | STATIC_DRAW | FLOAT | TRIANGLE_STRIP.

Definition COLOR_BUFFER_BIT : Z := 16384.
Definition DEPTH_BUFFER_BIT : Z := 256.

(** The calls the renderer issues on its WebGL context. *)
Inductive glcall :=
| viewport (x0 y0 w h : number)
| clearColor (r g b a : number)
| enable (cap : glenum)
| depthFunc (func : glenum)
| clear (mask : Z)
| createShader (type : glenum)
| shaderSource (shader : jsval) (source : string)
| compileShader (shader : jsval)
| getShaderParameter (shader : jsval) (pname : glenum)
| createProgram
| attachShader (program shader : jsval)
| linkProgram (program : jsval)
| getProgramParameter (program : jsval) (pname : glenum)
| useProgram (program : jsval)
| getAttribLocation (program : jsval) (name : string)
| enableVertexAttribArray (index : jsval)
| createBuffer
| bindBuffer (target : glenum) (buffer : jsval)
| bufferData (target : glenum) (data : list number) (usage : glenum)
| getUniformLocation (program : jsval) (name : string)
| uniformMatrix4fv (location : jsval) (transpose : bool) (value : list number)
| vertexAttribPointer (index : jsval) (size : nat) (type : glenum)
    (normalized : bool) (stride offset : Z)
| drawArrays (mode : glenum) (first : Z) (count : nat).

(** The value of a style property: a string, or [n.toString()] of a
    number. *)
Inductive cssvalue :=
| CssString (s : string)
| CssNumber (n : number).

(** Every call the renderer issues to a collaborator is logged, in order. *)
Inductive event :=
| DomCreate (tag : string) (e : Element)
| DomSetProperty (e : Element) (prop : string) (v : cssvalue)
| DomSetWidth (e : Element) (w : number)
| DomSetHeight (e : Element) (h : number)
| DomAppendChild (parent child : Element)
| DomGetContext (e : Element) (name : string)
| GL (ctx : GLContext) (c : glcall)
| CameraNew
| CameraGetView (cam : Camera)
| CameraGetPerspective (cam : Camera).

(** What a collaborator answers: it throws, or it returns a value.  What it
    throws is taken to be a JavaScript error with a message: a collaborator
    that throws the renderer's own [X.exception] or the iterator's
    [goog.iter.StopIteration] is outside this model. *)
Inductive reply (A : Type) :=
| Throws (msg : string)
| Returns (a : A).
Arguments Throws {A} msg.
Arguments Returns {A} a.

(** The collaborators of the renderer.  Each answer may depend on the calls
    logged so far, so that the same call can be answered differently at
    different times.  [matrix_flatten] and [matrix_multiplyByVector] are the
    two methods X.matrixHelper adds to [goog.math.Matrix]; the helper is not
    under src/ and they are taken as they come. *)
Record Env := {
  document_body : list event -> option Element;
  dom_getElement : list event -> string -> option Element;
  dom_createDom : list event -> string -> Element;
  canvas_getContext : list event -> Element -> string -> reply (option GLContext);
  gl_reply : list event -> GLContext -> glcall -> reply jsval;
  camera_new : list event -> reply Camera;
  camera_getView : list event -> Camera -> reply Matrix;
  camera_getPerspective : list event -> Camera -> reply Matrix;
  matrix_flatten : Matrix -> list number;
  matrix_multiplyByVector : Matrix -> Vec3 -> Matrix
}.

(** ** The renderer *)

Record renderer := mk_renderer {
  _className : string;
  _dimension : Z;
  _width : number;
  _height : number;
  _backgroundColor : string;
  _container : option Element;
  _canvas : option Element;
  _gl : option GLContext;
  _camera : option Camera;
  _objects : Map loc;
  _vertexBuffers : Map X_buffer;
  _colorBuffers : Map X_buffer;
  _id : Z;
  _vertexPositionAttribute : jsval;
  _vertexColorAttribute : jsval;
  _shaderProgram : jsval
}.

(** Field assignment, [this.f = v]. *)
Definition set_width (v : number) (r : renderer) : renderer :=
  mk_renderer (_className r) (_dimension r) v (_height r) (_backgroundColor
    r) (_container r) (_canvas r) (_gl r) (_camera r) (_objects r)
    (_vertexBuffers r) (_colorBuffers r) (_id r) (_vertexPositionAttribute r)
    (_vertexColorAttribute r) (_shaderProgram r).

Definition set_height (v : number) (r : renderer) : renderer :=
  mk_renderer (_className r) (_dimension r) (_width r) v (_backgroundColor
    r) (_container r) (_canvas r) (_gl r) (_camera r) (_objects r)
    (_vertexBuffers r) (_colorBuffers r) (_id r) (_vertexPositionAttribute r)
    (_vertexColorAttribute r) (_shaderProgram r).

Definition set_backgroundColor (v : string) (r : renderer) : renderer :=
  mk_renderer (_className r) (_dimension r) (_width r) (_height r) v
    (_container r) (_canvas r) (_gl r) (_camera r) (_objects r)
    (_vertexBuffers r) (_colorBuffers r) (_id r) (_vertexPositionAttribute r)
    (_vertexColorAttribute r) (_shaderProgram r).

Definition set_container (v : option Element) (r : renderer) : renderer :=
  mk_renderer (_className r) (_dimension r) (_width r) (_height r)
    (_backgroundColor r) v (_canvas r) (_gl r) (_camera r) (_objects r)
    (_vertexBuffers r) (_colorBuffers r) (_id r) (_vertexPositionAttribute r)
    (_vertexColorAttribute r) (_shaderProgram r).

Definition set_canvas (v : option Element) (r : renderer) : renderer :=
  mk_renderer (_className r) (_dimension r) (_width r) (_height r)
    (_backgroundColor r) (_container r) v (_gl r) (_camera r) (_objects r)
    (_vertexBuffers r) (_colorBuffers r) (_id r) (_vertexPositionAttribute r)
    (_vertexColorAttribute r) (_shaderProgram r).

Definition set_gl (v : option GLContext) (r : renderer) : renderer :=
  mk_renderer (_className r) (_dimension r) (_width r) (_height r)
    (_backgroundColor r) (_container r) (_canvas r) v (_camera r) (_objects r)
    (_vertexBuffers r) (_colorBuffers r) (_id r) (_vertexPositionAttribute r)
    (_vertexColorAttribute r) (_shaderProgram r).

Definition set_camera (v : option Camera) (r : renderer) : renderer :=
  mk_renderer (_className r) (_dimension r) (_width r) (_height r)
    (_backgroundColor r) (_container r) (_canvas r) (_gl r) v (_objects r)
    (_vertexBuffers r) (_colorBuffers r) (_id r) (_vertexPositionAttribute r)
    (_vertexColorAttribute r) (_shaderProgram r).

Definition set_objects (v : Map loc) (r : renderer) : renderer :=
  mk_renderer (_className r) (_dimension r) (_width r) (_height r)
    (_backgroundColor r) (_container r) (_canvas r) (_gl r) (_camera r) v
    (_vertexBuffers r) (_colorBuffers r) (_id r) (_vertexPositionAttribute r)
    (_vertexColorAttribute r) (_shaderProgram r).

Definition set_vertexBuffers (v : Map X_buffer) (r : renderer) : renderer :=
  mk_renderer (_className r) (_dimension r) (_width r) (_height r)
    (_backgroundColor r) (_container r) (_canvas r) (_gl r) (_camera r)
    (_objects r) v (_colorBuffers r) (_id r) (_vertexPositionAttribute r)
    (_vertexColorAttribute r) (_shaderProgram r).

Definition set_colorBuffers (v : Map X_buffer) (r : renderer) : renderer :=
  mk_renderer (_className r) (_dimension r) (_width r) (_height r)
    (_backgroundColor r) (_container r) (_canvas r) (_gl r) (_camera r)
    (_objects r) (_vertexBuffers r) v (_id r) (_vertexPositionAttribute r)
    (_vertexColorAttribute r) (_shaderProgram r).

Definition set_id (v : Z) (r : renderer) : renderer :=
  mk_renderer (_className r) (_dimension r) (_width r) (_height r)
    (_backgroundColor r) (_container r) (_canvas r) (_gl r) (_camera r)
    (_objects r) (_vertexBuffers r) (_colorBuffers r) v
    (_vertexPositionAttribute r) (_vertexColorAttribute r) (_shaderProgram r).

Definition set_vertexPositionAttribute (v : jsval) (r : renderer) : renderer :=
  mk_renderer (_className r) (_dimension r) (_width r) (_height r)
    (_backgroundColor r) (_container r) (_canvas r) (_gl r) (_camera r)
    (_objects r) (_vertexBuffers r) (_colorBuffers r) (_id r) v
    (_vertexColorAttribute r) (_shaderProgram r).

Definition set_vertexColorAttribute (v : jsval) (r : renderer) : renderer :=
  mk_renderer (_className r) (_dimension r) (_width r) (_height r)
    (_backgroundColor r) (_container r) (_canvas r) (_gl r) (_camera r)
    (_objects r) (_vertexBuffers r) (_colorBuffers r) (_id r)
    (_vertexPositionAttribute r) v (_shaderProgram r).

Definition set_shaderProgram (v : jsval) (r : renderer) : renderer :=
  mk_renderer (_className r) (_dimension r) (_width r) (_height r)
    (_backgroundColor r) (_container r) (_canvas r) (_gl r) (_camera r)
    (_objects r) (_vertexBuffers r) (_colorBuffers r) (_id r)
    (_vertexPositionAttribute r) (_vertexColorAttribute r) v.


(** [new X.renderer(width, height)]. *)
Definition new_X_renderer (width height : number) : renderer :=
  {| _className := "renderer";
     _dimension := -1;
     _width := width;
     _height := height;
     _backgroundColor := "#000000";
     _container := None;
     _canvas := None;
     _gl := None;
     _camera := None;
     _objects := [];
     _vertexBuffers := [];
     _colorBuffers := [];
     _id := -1;
     _vertexPositionAttribute := undefined;
     _vertexColorAttribute := undefined;
     _shaderProgram := undefined |}.

(** ** The monad of methods

    A method runs on the renderer's fields [this], the heap of JavaScript
    objects and the log of collaborator calls; it returns a value or throws,
    and what it did to the state before throwing stays done. *)
Record State := mk_state {
  this : renderer;
  heap : gmap loc cell;
  log : list event
}.

Definition M (A : Type) : Type := State -> (exn + A) * State.

Definition ret {A} (a : A) : M A := fun s => (inr a, s).

Definition throw {A} (e : exn) : M A := fun s => (inl e, s).

Definition bind {A B} (m : M A) (k : A -> M B) : M B :=
  fun s =>
    match m s with
    | (inl e, s') => (inl e, s')
    | (inr a, s') => k a s'
    end.

(** [try { m } catch (e) { handler e }]. *)
Definition try_catch {A} (m : M A) (handler : exn -> M A) : M A :=
  fun s =>
    match m s with
    | (inl e, s') => handler e s'
    | (inr a, s') => (inr a, s')
    end.

Notation "'let!' x ':=' m 'in' k" := (bind m (fun x => k))
  (at level 10, x binder, m at level 100, k at level 200, only parsing).
Notation "'do!' m 'in' k" := (bind m (fun _ => k))
  (at level 10, m at level 100, k at level 200, only parsing).

Definition get_this : M renderer := fun s => (inr (this s), s).

Definition assign (f : renderer -> renderer) : M unit :=
  fun s => (inr tt, mk_state (f (this s)) (heap s) (log s)).

Definition history : M (list event) := fun s => (inr (log s), s).

Definition emit (e : event) : M unit :=
  fun s => (inr tt, mk_state (this s) (heap s) (log s ++ [e])).

Definition deref (l : loc) : M (option cell) := fun s => (inr (heap s !! l), s).

Definition store (l : loc) (c : cell) : M unit :=
  fun s => (inr tt, mk_state (this s) (<[l := c]> (heap s)) (log s)).

(** [new]: the object is put at a location the heap does not use yet. *)
Definition alloc (c : cell) : M loc :=
  fun s =>
    let l := fresh (dom (heap s)) in
    (inr l, mk_state (this s) (<[l := c]> (heap s)) (log s)).

Definition await {A} (r : reply A) : M A :=
  match r with
  | Throws msg => throw (Error msg)
  | Returns a => ret a
  end.

Definition lift_result {A} (r : exn + A) : M A :=
  match r with
  | inl e => throw e
  | inr a => ret a
  end.

Definition TypeError : exn := Error "TypeError".

(** *** Methods of the scene object and its containers *)

Definition X_object_get {A} (f : X_object -> A) (object : loc) : M A :=
  let! c := deref object in
  match c with
  | Some (CObject o) => ret (f o)
  | _ => throw TypeError
  end.

(** [object.color()], [object.points()], [object.colors()]. *)
Definition X_object_color : loc -> M (option X_color) := X_object_get object_color.
Definition X_object_points : loc -> M loc := X_object_get object_points.
Definition X_object_colors : loc -> M loc := X_object_get object_colors.

Definition X_points_get {A} (f : list Vec3 -> A) (points : loc) : M A :=
  let! c := deref points in
  match c with
  | Some (CPoints ps) => ret (f ps)
  | _ => throw TypeError
  end.

(** [points.count()], [points.flatten()]. *)
Definition X_points_count : loc -> M nat := X_points_get (@length Vec3).
Definition X_points_flatten : loc -> M (list number) := X_points_get points_flatten.

(** The renderer's variable [colors] starts as [null]. *)
Definition X_colors_get {A} (f : list X_color -> A) (colors : option loc) : M A :=
  match colors with
  | None => throw TypeError
  | Some l =>
    let! c := deref l in
    match c with
    | Some (CColors cs) => ret (f cs)
    | _ => throw TypeError
    end
  end.

(** [colors.count()], [colors.flatten()]. *)
Definition X_colors_count : option loc -> M nat := X_colors_get (@length X_color).
Definition X_colors_flatten : option loc -> M (list number) := X_colors_get colors_flatten.

(** [new X.colors()]: a fresh, empty container. *)
Definition new_X_colors : M loc := alloc (CColors []).

(** [colors.add(c)] appends to the container, in place. *)
Definition X_colors_add (colors : loc) (c : X_color) : M unit :=
  let! cs := X_colors_get id (Some colors) in
  store colors (CColors (cs ++ [c])).

(** ** The methods of X.renderer *)

Section Methods.

Variable env : Env.

(** *** Calls to the collaborators

    The reply is the collaborator's answer to the calls logged before this
    one; the call is logged whether it returns or throws. *)

Definition goog_dom_createDom (tag : string) : M Element :=
  let! h := history in
  let e := dom_createDom env h tag in
  do! emit (DomCreate tag e) in
  ret e.

Definition style_setProperty (e : Element) (prop : string) (v : cssvalue) : M unit :=
  emit (DomSetProperty e prop v).

Definition goog_dom_appendChild (parent child : Element) : M unit :=
  emit (DomAppendChild parent child).

Definition canvas_getContext_ (canvas : Element) (name : string) : M (option GLContext) :=
  let! h := history in
  do! emit (DomGetContext canvas name) in
  await (canvas_getContext env h canvas name).

Definition gl_call (gl : GLContext) (c : glcall) : M jsval :=
  let! h := history in
  do! emit (GL gl c) in
  await (gl_reply env h gl c).

(** [this._gl.c(...)]; a [TypeError] when [this._gl] is [null]. *)
Definition this_gl (c : glcall) : M jsval :=
  let! r := get_this in
  match _gl r with
  | None => throw TypeError
  | Some gl => gl_call gl c
  end.

Definition new_X_camera : M Camera :=
  let! h := history in
  do! emit CameraNew in
  await (camera_new env h).

(** [this._camera.getView()] and [this._camera.getPerspective()]. *)
Definition this_camera_getView : M Matrix :=
  let! r := get_this in
  match _camera r with
  | None => throw TypeError
  | Some cam =>
    let! h := history in
    do! emit (CameraGetView cam) in
    await (camera_getView env h cam)
  end.

Definition this_camera_getPerspective : M Matrix :=
  let! r := get_this in
  match _camera r with
  | None => throw TypeError
  | Some cam =>
    let! h := history in
    do! emit (CameraGetPerspective cam) in
    await (camera_getPerspective env h cam)
  end.

(** *** Accessors *)

Definition getDimension : M Z := let! r := get_this in ret (_dimension r).

Definition getWidth : M number := let! r := get_this in ret (_width r).

Definition setWidth (width : number) : M unit :=
  let! r := get_this in
  do! (match _canvas r with
       | Some canvas => style_setProperty canvas "width" (CssNumber width)
       | None => ret tt
       end) in
  assign (set_width width).

Definition getHeight : M number := let! r := get_this in ret (_height r).

Definition setHeight (height : number) : M unit :=
  let! r := get_this in
  do! (match _canvas r with
       | Some canvas => style_setProperty canvas "height" (CssNumber height)
       | None => ret tt
       end) in
  assign (set_height height).

Definition getBackgroundColor : M string :=
  let! r := get_this in ret (_backgroundColor r).

Definition setBackgroundColor (backgroundColor : string) : M unit :=
  let! r := get_this in
  do! (match _canvas r with
       | Some canvas =>
         style_setProperty canvas "background-color" (CssString backgroundColor)
       | None => ret tt
       end) in
  assign (set_backgroundColor backgroundColor).

(** *** The container *)

Definition getContainer : M Element :=
  let! r := get_this in
  match _container r with
  | Some container => ret container
  | None =>
    let! h := history in
    match document_body env h with
    | None => throw (X_exception "Fatal: Could not find <body></body>!")
    | Some body =>
      do! assign (set_container (Some body)) in
      ret body
    end
  end.

Definition setContainer (container : option Element) : M unit :=
  match container with
  | None => throw (X_exception "Fatal: Could not find container!")
  | Some _ => assign (set_container container)
  end.

Definition setContainerById (containerId : string) : M unit :=
  let! h := history in
  let container := dom_getElement env h containerId in
  setContainer container.

(** *** init *)

Definition init : M unit :=
  let! r := get_this in
  if bool_decide (is_Some (_canvas r)) then ret tt else
  let! canvas := goog_dom_createDom "canvas" in
  let! backgroundColor := getBackgroundColor in
  do! style_setProperty canvas "background-color" (CssString backgroundColor) in
  let! width := getWidth in
  do! emit (DomSetWidth canvas width) in
  let! height := getHeight in
  do! emit (DomSetHeight canvas height) in
  let! container := getContainer in
  do! goog_dom_appendChild container canvas in
  (* Step1: Get Context of canvas *)
  let! gl :=
    try_catch (canvas_getContext_ canvas "experimental-webgl")
      (fun e => throw (X_exception
         (String.append "Fatal: Exception while getting GL Context!"
            (String.append LF (exn_toString e))))) in
  (* Step2: Check if we got the context *)
  match gl with
  | None => throw (X_exception "Fatal: WebGL not supported!")
  | Some gl =>
    (* Step3: Configure the context *)
    do! try_catch
          (let! width := getWidth in
           let! height := getHeight in
           do! gl_call gl (viewport 0 0 width height) in
           do! gl_call gl (clearColor 0 0 0 0) in
           do! gl_call gl (enable DEPTH_TEST) in
           do! gl_call gl (depthFunc LEQUAL) in
           do! gl_call gl (clear (Z.lor COLOR_BUFFER_BIT DEPTH_BUFFER_BIT)) in
           ret tt)
          (fun e => throw (X_exception
             (String.append "Fatal: Exception while accessing GL Context!"
                (String.append LF (exn_toString e))))) in
    let! camera := new_X_camera in
    do! assign (set_canvas (Some canvas)) in
    do! assign (set_gl (Some gl)) in
    assign (set_camera (Some camera))
  end.

(** *** addShaders

    A shader argument is [null] or a shader object, of which the renderer
    only asks [getSource()]. *)

Definition addShaders (fragmentShader vertexShader : option string) : M unit :=
  let! r := get_this in
  if negb (bool_decide (is_Some (_canvas r))) || negb (bool_decide (is_Some (_gl r)))
  then throw (X_exception "Fatal: Renderer was not initialized properly!") else
  match fragmentShader, vertexShader with
  | Some fragmentSource, Some vertexSource =>
    let! glFragmentShader := this_gl (createShader FRAGMENT_SHADER) in
    let! glVertexShader := this_gl (createShader VERTEX_SHADER) in
    do! this_gl (shaderSource glFragmentShader fragmentSource) in
    do! this_gl (shaderSource glVertexShader vertexSource) in
    do! this_gl (compileShader glFragmentShader) in
    do! this_gl (compileShader glVertexShader) in
    let! fragmentStatus := this_gl (getShaderParameter glFragmentShader COMPILE_STATUS) in
    let! compiled :=
      (if truthy fragmentStatus
       then let! vertexStatus :=
              this_gl (getShaderParameter glVertexShader COMPILE_STATUS) in
            ret (truthy vertexStatus)
       else ret false) in
    if negb compiled then throw (X_exception "Fatal: Shader compilation failed!") else
    let! shaderProgram := this_gl createProgram in
    do! this_gl (attachShader shaderProgram glVertexShader) in
    do! this_gl (attachShader shaderProgram glFragmentShader) in
    do! this_gl (linkProgram shaderProgram) in
    let! linkStatus := this_gl (getProgramParameter shaderProgram LINK_STATUS) in
    if negb (truthy linkStatus)
    then throw (X_exception "Fatal: Could not create shader program!") else
    do! this_gl (useProgram shaderProgram) in
    let! position := this_gl (getAttribLocation shaderProgram "vertexPosition") in
    do! assign (set_vertexPositionAttribute position) in
    let! r := get_this in
    do! this_gl (enableVertexAttribArray (_vertexPositionAttribute r)) in
    let! color := this_gl (getAttribLocation shaderProgram "vertexColor") in
    do! assign (set_vertexColorAttribute color) in
    let! r := get_this in
    do! this_gl (enableVertexAttribArray (_vertexColorAttribute r)) in
    assign (set_shaderProgram shaderProgram)
  | _, _ => throw (X_exception "Fatal: Could not add shaders!")
  end.

(** *** addObject *)

(** [++this._id] on an IEEE double holding an integer: exact below 2^53, and
    at 2^53 the sum 2^53 + 1 rounds back to 2^53. *)
Definition incr (n : Z) : Z := if n <? 2 ^ 53 then n + 1 else n.

(** [for (i = 0; i < object.points().count(); i++) colors.add(objectColor)],
    entered at [i]; the bound is read again at every turn, as in the source.
    The recursion is on [fuel], a bound on the turns still to take; the
    caller gives one more than the number of points. *)
Fixpoint add_colors_loop (fuel : nat) (object colors : loc) (objectColor : X_color)
    (i : nat) : M unit :=
  match fuel with
  | O => throw OutOfFuel
  | S fuel' =>
    let! points := X_object_points object in
    let! n := X_points_count points in
    if (i <? n)%nat then
      do! X_colors_add colors objectColor in
      add_colors_loop fuel' object colors objectColor (S i)
    else ret tt
  end.

(** Lines 516 to 547 of [addObject], the resolution of the colors: the
    value of the variable [colors] once they are settled.  The source calls
    [object.color()] twice, for the test and for the value; nothing happens
    in between and the model keeps the first answer. *)
Definition addObject_colors (object : loc) : M (option loc) :=
  let colorsValid := false in
  let objectColor := new_X_color 1 1 1 in
  let colors : option loc := None in
  let! oc := X_object_color object in
  let! '(colorsValid, objectColor, colors) :=
    (match oc with
     | None =>
       let! points := X_object_points object in
       let! n := X_points_count points in
       let! pointColors := X_object_colors object in
       let! m := X_colors_count (Some pointColors) in
       let! pointColors := X_object_colors object in
       ret (Nat.eqb n m, objectColor, Some pointColors)
     | Some c => ret (colorsValid, c, colors)
     end) in
  if negb colorsValid then
    let! colors := new_X_colors in
    let! points := X_object_points object in
    let! n := X_points_count points in
    do! add_colors_loop (S n) object colors objectColor 0 in
    ret (Some colors)
  else ret colors.

(** The argument is [null], or a reference to a heap object; [instanceof
    X.object] holds of the references to a scene object. *)
Definition addObject (object : option loc) : M Z :=
  let! r := get_this in
  if negb (bool_decide (is_Some (_canvas r))) || negb (bool_decide (is_Some (_gl r)))
     || negb (bool_decide (is_Some (_camera r)))
  then throw (X_exception "Fatal: Renderer was not initialized properly!") else
  match object with
  | None => throw (X_exception "Fatal: Illegal object!")
  | Some object =>
    let! c := deref object in
    match c with
    | Some (CObject _) =>
      let! colors := addObject_colors object in
      (* create vertex buffer *)
      let! glVertexBuffer := this_gl createBuffer in
      do! this_gl (bindBuffer ARRAY_BUFFER glVertexBuffer) in
      let! points := X_object_points object in
      let! vertices := X_points_flatten points in
      do! this_gl (bufferData ARRAY_BUFFER (Float32Array vertices) STATIC_DRAW) in
      let! points := X_object_points object in
      let! n := X_points_count points in
      let vertexBuffer := new_X_buffer glVertexBuffer n 3 in
      (* create color buffer *)
      let! glColorBuffer := this_gl createBuffer in
      do! this_gl (bindBuffer ARRAY_BUFFER glColorBuffer) in
      let! flat := X_colors_flatten colors in
      do! this_gl (bufferData ARRAY_BUFFER (Float32Array flat) STATIC_DRAW) in
      let! m := X_colors_count colors in
      let colorBuffer := new_X_buffer glColorBuffer m 4 in
      do! assign (fun r => set_id (incr (_id r)) r) in
      let! r := get_this in
      if Map_containsKey (_objects r) (_id r)
      then throw (X_exception "Fatal: Could not get unique id.") else
      let uniqueId := _id r in
      do! assign (fun r => set_objects (Map_set (_objects r) uniqueId object) r) in
      do! assign (fun r =>
            set_vertexBuffers (Map_set (_vertexBuffers r) uniqueId vertexBuffer) r) in
      do! assign (fun r =>
            set_colorBuffers (Map_set (_colorBuffers r) uniqueId colorBuffer) r) in
      ret uniqueId
    | _ => throw (X_exception "Fatal: Illegal object!")
    end
  end.

(** *** render *)

(** The body of [while (true)]: [keyIterator.next()] throws
    [goog.iter.StopIteration] when the keys are exhausted. *)
Fixpoint render_loop (keyIterator : list Z) : M unit :=
  match keyIterator with
  | [] => throw StopIteration
  | key :: keyIterator' =>
    let! r := get_this in
    do! (match Map_get (_objects r) key with
         | Some _ =>
           let! r := get_this in
           let vertexBuffer := Map_get (_vertexBuffers r) key in
           let colorBuffer := Map_get (_colorBuffers r) key in
           match vertexBuffer with
           | None => throw TypeError
           | Some vertexBuffer =>
             do! this_gl (bindBuffer ARRAY_BUFFER (glBuffer vertexBuffer)) in
             let! r := get_this in
             do! this_gl (vertexAttribPointer (_vertexPositionAttribute r)
                            (itemSize vertexBuffer) FLOAT false 0 0) in
             match colorBuffer with
             | None => throw TypeError
             | Some colorBuffer =>
               do! this_gl (bindBuffer ARRAY_BUFFER (glBuffer colorBuffer)) in
               let! r := get_this in
               do! this_gl (vertexAttribPointer (_vertexColorAttribute r)
                              (itemSize colorBuffer) FLOAT false 0 0) in
               do! this_gl (drawArrays TRIANGLE_STRIP 0 (itemCount vertexBuffer)) in
               ret tt
             end
           end
         | None => ret tt
         end) in
    render_loop keyIterator'
  end.

Definition render : M unit :=
  let! r := get_this in
  if negb (bool_decide (is_Some (_canvas r))) || negb (bool_decide (is_Some (_gl r)))
     || negb (bool_decide (is_Some (_camera r)))
  then throw (X_exception "Fatal: The renderer was not initialized properly!") else
  do! this_gl (clear (Z.lor COLOR_BUFFER_BIT DEPTH_BUFFER_BIT)) in
  let! perspectiveMatrix := this_camera_getPerspective in
  let! viewMatrix := this_camera_getView in
  let! r := get_this in
  let! perspectiveUniformLocation :=
    this_gl (getUniformLocation (_shaderProgram r) "perspective") in
  do! this_gl (uniformMatrix4fv perspectiveUniformLocation false
                 (Float32Array (matrix_flatten env perspectiveMatrix))) in
  let! r := get_this in
  let! viewUniform := this_gl (getUniformLocation (_shaderProgram r) "view") in
  do! this_gl (uniformMatrix4fv viewUniform false
                 (Float32Array (matrix_flatten env viewMatrix))) in
  let! r := get_this in
  let keyIterator := Map_getKeys (_objects r) in
  try_catch (render_loop keyIterator)
    (fun e => if bool_decide (e <> StopIteration) then throw e else ret tt).

(** *** convertWorldToDisplayCoordinates *)

Definition convertWorldToDisplayCoordinates (vector : Vec3) : M Vec2 :=
  let! view := this_camera_getView in
  let! perspective := this_camera_getPerspective in
  let viewPerspective := createIdentityMatrix 4 in
  let! _ := lift_result (Matrix_multiply viewPerspective view) in
  let! _ := lift_result (Matrix_multiply viewPerspective perspective) in
  let twoDVectorAsMatrix := matrix_multiplyByVector env viewPerspective vector in
  let x := ((ToNumber (getValueAt twoDVectorAsMatrix 0 0) + 1) / 2)%Q in
  let! width := getWidth in
  let x := (x * width)%Q in
  let y := ((1 - ToNumber (getValueAt twoDVectorAsMatrix 0 1)) / 2)%Q in
  let! height := getHeight in
  let y := (y * height)%Q in
  ret (goog_math_Vec2 (Math_round x) (Math_round y)).

End Methods.

(** ** Runs of a renderer

    What a caller can do with a renderer: call its methods, and, between two
    calls, change its own objects on the heap. *)
Inductive call :=
| call_setWidth (width : number)
| call_setHeight (height : number)
| call_setBackgroundColor (backgroundColor : string)
| call_getContainer
| call_setContainer (container : option Element)
| call_setContainerById (containerId : string)
| call_init
| call_addShaders (fragmentShader vertexShader : option string)
| call_addObject (object : option loc)
| call_render
| call_convertWorldToDisplayCoordinates (vector : Vec3)
| caller_writes (f : gmap loc cell -> gmap loc cell).

Inductive value :=
| VUnit
| VElement (e : Element)
| VId (id : Z)
| VVec2 (v : Vec2).

Definition returning {A} (f : A -> value) (m : M A) : M value :=
  let! a := m in ret (f a).

Definition exec (env : Env) (c : call) : M value :=
  match c with
  | call_setWidth width => returning (fun _ => VUnit) (setWidth width)
  | call_setHeight height => returning (fun _ => VUnit) (setHeight height)
  | call_setBackgroundColor backgroundColor =>
    returning (fun _ => VUnit) (setBackgroundColor backgroundColor)
  | call_getContainer => returning VElement (getContainer env)
  | call_setContainer container => returning (fun _ => VUnit) (setContainer container)
  | call_setContainerById containerId =>
    returning (fun _ => VUnit) (setContainerById env containerId)
  | call_init => returning (fun _ => VUnit) (init env)
  | call_addShaders fragmentShader vertexShader =>
    returning (fun _ => VUnit) (addShaders env fragmentShader vertexShader)
  | call_addObject object => returning VId (addObject env object)
  | call_render => returning (fun _ => VUnit) (render env)
  | call_convertWorldToDisplayCoordinates vector =>
    returning VVec2 (convertWorldToDisplayCoordinates env vector)
  | caller_writes f =>
    fun s => (inr VUnit, mk_state (this s) (f (heap s)) (log s))
  end.

(** The state a renderer starts in, on the caller's heap. *)
Definition initial (width height : number) (h : gmap loc cell) : State :=
  mk_state (new_X_renderer width height) h [].

(** A run: the calls in order, each on the state the previous one left,
    whether it returned or threw. *)
Fixpoint run (env : Env) (cs : list call) (s : State) : list (exn + value) * State :=
  match cs with
  | [] => ([], s)
  | c :: cs' =>
    let '(r, s') := exec env c s in
    let '(rs, s'') := run env cs' s' in
    (r :: rs, s'')
  end.

(** The states a renderer can be in. *)
Inductive reachable (env : Env) : State -> Prop :=
| reachable_initial width height h : reachable env (initial width height h)
| reachable_exec c s : reachable env s -> reachable env (snd (exec env c s)).

(** ** A concrete environment

    A browser in which everything works: the document has a body, the canvas
    gives a WebGL context, no call throws, and the camera looks through a
    view that halves every coordinate and an identity projection. *)

(** Modelled from the spec: X.matrixHelper is not under src/.
    [m.multiplyByVector(v)] applies the transform [m] to the vector
    (x, y, z, 1) and returns the result as a one-row matrix, of which the
    renderer reads the entries (0, 0) and (0, 1) as the normalized x and y. *)
Definition multiplyByVector_spec (m : Matrix) (v : Vec3) : Matrix :=
  [List.map (fun row =>
     fold_left Qplus
       (List.map (fun '(a, b) => (a * b)%Q)
          (combine row [vec_x v; vec_y v; vec_z v; 1%Q])) 0%Q) m].

Definition half_view : Matrix :=
  [[1 # 2; 0; 0; 0]; [0; 1 # 2; 0; 0]; [0; 0; 1 # 2; 0]; [0; 0; 0; 1]]%Q.

Definition demo_gl (h : list event) (c : glcall) : jsval :=
  match c with
  | createShader _ | createProgram | createBuffer => JObj (length h)
  | getShaderParameter _ _ | getProgramParameter _ _ => JBool true
  | getAttribLocation _ _ => JNum (Z.of_nat (length h))
  | getUniformLocation _ _ => JObj (length h)
  | _ => undefined
  end.

Definition demo_env : Env :=
  {| document_body := fun _ => Some 0%nat;
     dom_getElement := fun _ _ => None;
     dom_createDom := fun h _ => S (length h);
     canvas_getContext := fun _ _ _ => Returns (Some 7%nat);
     gl_reply := fun h _ c => Returns (demo_gl h c);
     camera_new := fun _ => Returns 3%nat;
     camera_getView := fun _ _ => Returns half_view;
     camera_getPerspective := fun _ _ => Returns (createIdentityMatrix 4);
     matrix_flatten := fun m => List.concat m;
     matrix_multiplyByVector := multiplyByVector_spec |}.

(** The caller's heap: a red object of two points with one point color at
    location 0, an uncolored object over the same points with as many point
    colors at 3, and an uncolored one with too few point colors at 5. *)
Definition demo_red : X_color := mk_color 1 0 0 1.
Definition demo_blue : X_color := mk_color 0 0 1 (1 # 2).
Definition demo_green : X_color := mk_color 0 1 0 1.

Definition demo_heap : gmap loc cell :=
  list_to_map
    [(0%nat, CObject (mk_object (Some demo_red) 1%nat 2%nat));
     (1%nat, CPoints [goog_math_Vec3 0 0 0; goog_math_Vec3 1 0 0]);
     (2%nat, CColors [demo_blue]);
     (3%nat, CObject (mk_object None 1%nat 4%nat));
     (4%nat, CColors [demo_blue; demo_green]);
     (5%nat, CObject (mk_object None 1%nat 2%nat))].

(** A renderer of 100 by 100 pixels after [init]. *)
Definition demo_state : State :=
  snd (init demo_env (initial 100 100 demo_heap)).

(** ** Vocabulary of the properties *)

(** The three fields [init] publishes. *)
Definition live (r : renderer) : option Element * option GLContext * option Camera :=
  (_canvas r, _gl r, _camera r).


Definition all_live (r : renderer) : Prop :=
  is_Some (_canvas r) /\ is_Some (_gl r) /\ is_Some (_camera r).

(** The calls [init] issues, in order, when every one of them succeeds: the
    canvas is created, styled, sized and appended, its context is asked for
    and configured, and the camera is made. *)
Definition init_steps (r : renderer) (canvas container : Element) (gl : GLContext)
    : list event :=
  [DomCreate "canvas" canvas;
   DomSetProperty canvas "background-color" (CssString (_backgroundColor r));
   DomSetWidth canvas (_width r);
   DomSetHeight canvas (_height r);
   DomAppendChild container canvas;
   DomGetContext canvas "experimental-webgl";
   GL gl (viewport 0 0 (_width r) (_height r));
   GL gl (clearColor 0 0 0 0);
   GL gl (enable DEPTH_TEST);
   GL gl (depthFunc LEQUAL);
   GL gl (clear (Z.lor COLOR_BUFFER_BIT DEPTH_BUFFER_BIT));
   CameraNew].

(** The renderer throws one class, [X.exception]; the kinds of error are
    told apart by the message.  A call before [init] fails with one of these
    two. *)
Definition NotInitializedError (e : exn) : Prop :=
  e = X_exception "Fatal: Renderer was not initialized properly!" \/
  e = X_exception "Fatal: The renderer was not initialized properly!".

(** The ids a run handed out: the values of the calls of [addObject] that
    returned. *)
Definition added_ids (rs : list (exn + value)) : list Z :=
  omap (fun r => match r with inr (VId id) => Some id | _ => None end) rs.

(** The counter and the keys of the registry go together: the keys are
    0, 1, ..., [_id], in this order. *)
Definition ids_in_order (r : renderer) : Prop :=
  -1 <= _id r <= 2 ^ 53 /\
  Map_getKeys (_objects r) = List.map Z.of_nat (seq 0 (Z.to_nat (_id r + 1))).

(** The three-way policy of the colors, in the words of the specification:
    the object's color for every point if it has one, else the point colors
    if there are as many as points, else white for every point. *)
Definition color_policy (objectColor : option X_color) (points : list Vec3)
    (pointColors : list X_color) : list X_color :=
  match objectColor with
  | Some c => replicate (length points) c
  | None =>
    if decide (length pointColors = length points) then pointColors
    else replicate (length points) (new_X_color 1 1 1)
  end.

(** The normalized coordinates of a transformed vector mapped to pixels:
    x_px = round(((x + 1) / 2) * width), y_px = round(((1 - y) / 2) * height). *)
Definition to_pixels (transformed : Matrix) (width height : number) : Vec2 :=
  goog_math_Vec2
    (Math_round ((ToNumber (getValueAt transformed 0 0) + 1) / 2 * width)%Q)
    (Math_round ((1 - ToNumber (getValueAt transformed 0 1)) / 2 * height)%Q).

(** The projection in the words of the specification: the identity composed
    with the view and then with the projection, applied to the vector, mapped
    to pixels. *)
Definition convertWorldToDisplayCoordinates_spec (env : Env)
    (view perspective : Matrix) (width height : number) (vector : Vec3) : exn + Vec2 :=
  match Matrix_multiply (createIdentityMatrix 4) view with
  | inl e => inl e
  | inr identityView =>
    match Matrix_multiply identityView perspective with
    | inl e => inl e
    | inr viewPerspective =>
      inr (to_pixels (matrix_multiplyByVector env viewPerspective vector) width height)
    end
  end.

(** An invariant of monadic code: it holds of the state a computation leaves,
    whether it returns or throws, if it held of the state it started in. *)
Definition inv (P : State -> Prop) {A} (m : M A) : Prop :=
  forall s, P s -> P (snd (m s)).

(** What an invariant must tolerate for the three kinds of writes. *)
Definition ignores_log (P : State -> Prop) : Prop :=
  forall s e, P s -> P (mk_state (this s) (heap s) (log s ++ [e])).

Definition ignores_heap (P : State -> Prop) : Prop :=
  forall s h, P s -> P (mk_state (this s) h (log s)).

Definition ignores_assign (P : State -> Prop) (f : renderer -> renderer) : Prop :=
  forall s, P s -> P (mk_state (f (this s)) (heap s) (log s)).

(** Well-behaved collaborators: a WebGL context and a camera that answer
    every call, whatever was asked before. *)
Definition gl_returns (env : Env) : Prop :=
  forall h gl c, exists v, gl_reply env h gl c = Returns v.

Definition camera_returns (env : Env) : Prop :=
  forall h cam,
    (exists m, camera_getView env h cam = Returns m) /\
    (exists m, camera_getPerspective env h cam = Returns m).

(** The log only grows. *)
Definition extends_log (l : list event) (s : State) : Prop :=
  exists rest, log s = l ++ rest.

(** The variable [colorsValid] of [addObject], as a property: there is no
    object color and there are as many point colors as points. *)
Definition colorsValid (o : X_object) (ps : list Vec3) (pcs : list X_color) : Prop :=
  object_color o = None /\ length pcs = length ps.

(** What the resolution of the colors establishes between the state [s]
    before and the state [s'] after, for the object at [object]: the scene
    object [o], its points [ps] and, when it has no object color, its point
    colors [pcs] are on the heap; the fields and the log are the same; the
    container at [colors] holds the colors [cs] of the policy; and either
    the point colors are valid, [colors] is the object's own container and
    the heap is the same, or [colors] is a location the heap did not use and
    the new container is the only change. *)
Definition colors_resolved (s s' : State) (object : loc) (o : X_object)
    (ps : list Vec3) (pcs : list X_color) (colors : loc) (cs : list X_color) : Prop :=
  heap s !! object = Some (CObject o) /\
  heap s !! object_points o = Some (CPoints ps) /\
  (object_color o = None -> heap s !! object_colors o = Some (CColors pcs)) /\
  this s' = this s /\
  log s' = log s /\
  cs = color_policy (object_color o) ps pcs /\
  heap s' !! colors = Some (CColors cs) /\
  ((colorsValid o ps pcs /\ colors = object_colors o /\ heap s' = heap s) \/
   (~ colorsValid o ps pcs /\ heap s !! colors = None /\
    heap s' = <[colors := CColors cs]> (heap s))).

(** The data of the last upload the log records. *)
Definition last_upload (l : list event) : option (list number) :=
  match last l with
  | Some (GL _ (bufferData _ data _)) => Some data
  | _ => None
  end.

(** The literal inputs of the specification: five points; at 10 an object
    with the explicit color red and three point colors, at 11 an object
    without object color and with five point colors, at 12 one without
    object color and with three point colors. *)
Definition five_points : list Vec3 :=
  [goog_math_Vec3 0 0 0; goog_math_Vec3 1 0 0; goog_math_Vec3 1 1 0;
   goog_math_Vec3 0 1 0; goog_math_Vec3 0 0 1].

Definition five_colors : list X_color :=
  [demo_red; demo_green; demo_blue; demo_green; demo_red].

Definition three_colors : list X_color := [demo_blue; demo_green; demo_red].

Definition literal_heap : gmap loc cell :=
  list_to_map
    [(1%nat, CPoints five_points);
     (2%nat, CColors five_colors);
     (3%nat, CColors three_colors);
     (10%nat, CObject (mk_object (Some demo_red) 1%nat 3%nat));
     (11%nat, CObject (mk_object None 1%nat 2%nat));
     (12%nat, CObject (mk_object None 1%nat 3%nat))].

Definition literal_state : State :=
  snd (init demo_env (initial 640 480 literal_heap)).

(** ** Vocabulary of the further properties *)

(** The fields of the registry, and the fields [addShaders] sets. *)
Definition registry (r : renderer) : Z * Map loc * Map X_buffer * Map X_buffer :=
  (_id r, _objects r, _vertexBuffers r, _colorBuffers r).

Definition shader_fields (r : renderer) : jsval * jsval * jsval :=
  (_vertexPositionAttribute r, _vertexColorAttribute r, _shaderProgram r).

(** The three maps of the registry have the same keys in the same order. *)
Definition registry_aligned (r : renderer) : Prop :=
  Map_getKeys (_vertexBuffers r) = Map_getKeys (_objects r) /\
  Map_getKeys (_colorBuffers r) = Map_getKeys (_objects r).

(** The calls [render] issues before its loop: the clear, the two questions
    to the camera, and for each matrix the lookup of its uniform and the
    upload. *)
Definition uniform_events (gl : GLContext) (cam : Camera) (program : jsval)
    (perspectiveLocation viewLocation : jsval) (perspective view : list number)
    : list event :=
  [GL gl (clear (Z.lor COLOR_BUFFER_BIT DEPTH_BUFFER_BIT));
   CameraGetPerspective cam;
   CameraGetView cam;
   GL gl (getUniformLocation program "perspective");
   GL gl (uniformMatrix4fv perspectiveLocation false (Float32Array perspective));
   GL gl (getUniformLocation program "view");
   GL gl (uniformMatrix4fv viewLocation false (Float32Array view))].

(** The calls [render] issues for the entry under [key]. *)
Definition draw_events (gl : GLContext) (r : renderer) (key : Z) : list event :=
  match Map_get (_vertexBuffers r) key, Map_get (_colorBuffers r) key with
  | Some vertexBuffer, Some colorBuffer =>
    [GL gl (bindBuffer ARRAY_BUFFER (glBuffer vertexBuffer));
     GL gl (vertexAttribPointer (_vertexPositionAttribute r) (itemSize vertexBuffer)
              FLOAT false 0 0);
     GL gl (bindBuffer ARRAY_BUFFER (glBuffer colorBuffer));
     GL gl (vertexAttribPointer (_vertexColorAttribute r) (itemSize colorBuffer)
              FLOAT false 0 0);
     GL gl (drawArrays TRIANGLE_STRIP 0 (itemCount vertexBuffer))]
  | _, _ => []
  end.

(** The calls [addShaders] issues, in order, when it returns. *)
Definition addShaders_steps (gl : GLContext) (fragmentSource vertexSource : string)
    (glFragmentShader glVertexShader shaderProgram position color : jsval)
    : list event :=
  [GL gl (createShader FRAGMENT_SHADER);
   GL gl (createShader VERTEX_SHADER);
   GL gl (shaderSource glFragmentShader fragmentSource);
   GL gl (shaderSource glVertexShader vertexSource);
   GL gl (compileShader glFragmentShader);
   GL gl (compileShader glVertexShader);
   GL gl (getShaderParameter glFragmentShader COMPILE_STATUS);
   GL gl (getShaderParameter glVertexShader COMPILE_STATUS);
   GL gl createProgram;
   GL gl (attachShader shaderProgram glVertexShader);
   GL gl (attachShader shaderProgram glFragmentShader);
   GL gl (linkProgram shaderProgram);
   GL gl (getProgramParameter shaderProgram LINK_STATUS);
   GL gl (useProgram shaderProgram);
   GL gl (getAttribLocation shaderProgram "vertexPosition");
   GL gl (enableVertexAttribArray position);
   GL gl (getAttribLocation shaderProgram "vertexColor");
   GL gl (enableVertexAttribArray color)].

(** The calls [init] has issued when it asks for the context: the canvas is
    in the document from then on. *)
Definition init_dom_steps (r : renderer) (canvas container : Element) : list event :=
  [DomCreate "canvas" canvas;
   DomSetProperty canvas "background-color" (CssString (_backgroundColor r));
   DomSetWidth canvas (_width r);
   DomSetHeight canvas (_height r);
   DomAppendChild container canvas;
   DomGetContext canvas "experimental-webgl"].


(** A browser without WebGL: as [demo_env], but the canvas gives no
    context. *)
Definition no_webgl_env : Env :=
  {| document_body := document_body demo_env;
     dom_getElement := fun _ id => if String.eqb id "viewer" then Some 9%nat else None;
     dom_createDom := dom_createDom demo_env;
     canvas_getContext := fun _ _ _ => Returns None;
     gl_reply := gl_reply demo_env;
     camera_new := camera_new demo_env;
     camera_getView := camera_getView demo_env;
     camera_getPerspective := camera_getPerspective demo_env;
     matrix_flatten := matrix_flatten demo_env;
     matrix_multiplyByVector := matrix_multiplyByVector demo_env |}.

(** The renderer of [literal_state] with its three objects added. *)
Definition populated_state : State :=
  snd (run demo_env
         [call_addObject (Some 10%nat); call_addObject (Some 11%nat);
          call_addObject (Some 12%nat)]
         literal_state).

(** A browser whose WebGL context is lost while drawing: as [demo_env],
    but every [drawArrays] throws. *)
Definition lost_context_env : Env :=
  {| document_body := document_body demo_env;
     dom_getElement := dom_getElement demo_env;
     dom_createDom := dom_createDom demo_env;
     canvas_getContext := canvas_getContext demo_env;
     gl_reply := fun h _ c =>
       match c with
       | drawArrays _ _ _ => Throws "context lost"
       | _ => Returns (demo_gl h c)
       end;
     camera_new := camera_new demo_env;
     camera_getView := camera_getView demo_env;
     camera_getPerspective := camera_getPerspective demo_env;
     matrix_flatten := matrix_flatten demo_env;
     matrix_multiplyByVector := matrix_multiplyByVector demo_env |}.

(** A browser with a two-dimensional canvas only: as [demo_env], but the
    canvas gives a context under the name [2d] and under no other. *)
Definition canvas2d_env : Env :=
  {| document_body := document_body demo_env;
     dom_getElement := dom_getElement demo_env;
     dom_createDom := dom_createDom demo_env;
     canvas_getContext := fun _ _ name =>
       if String.eqb name "2d" then Returns (Some 8%nat) else Returns None;
     gl_reply := gl_reply demo_env;
     camera_new := camera_new demo_env;
     camera_getView := camera_getView demo_env;
     camera_getPerspective := camera_getPerspective demo_env;
     matrix_flatten := matrix_flatten demo_env;
     matrix_multiplyByVector := matrix_multiplyByVector demo_env |}.

(** The call [ev], issued after the calls [h], was answered by throwing an
    error with the message [msg]. *)
Definition thrown_by (env : Env) (h : list event) (ev : event) (msg : string) : Prop :=
  match ev with
  | GL gl c => gl_reply env h gl c = Throws msg
  | CameraGetView cam => camera_getView env h cam = Throws msg
  | CameraGetPerspective cam => camera_getPerspective env h cam = Throws msg
  | _ => False
  end.

(** The exception [e] is the error thrown by the call logged last in [l]. *)
Definition rethrown (env : Env) (l : list event) (e : exn) : Prop :=
  exists h ev msg, l = h ++ [ev] /\ thrown_by env h ev msg /\ e = Error msg.

(** An entry of the registry under one of [keys] has no vertex buffer or no
    color buffer. *)
Definition buffer_missing (r : renderer) (keys : list Z) : Prop :=
  exists key, In key keys /\ is_Some (Map_get (_objects r) key) /\
    (Map_get (_vertexBuffers r) key = None \/ Map_get (_colorBuffers r) key = None).

(** * Proofs *)

(** ** Invariants of monadic code *)

Section Invariants.

Variable P : State -> Prop.

Lemma inv_ret {A} (a : A) : inv P (ret a).
Proof. intros s H. exact H. Qed.

Lemma inv_throw {A} (e : exn) : inv P (@throw A e).
Proof. intros s H. exact H. Qed.

Lemma inv_bind {A B} (m : M A) (k : A -> M B) :
  inv P m -> (forall a, inv P (k a)) -> inv P (bind m k).
Proof.
  intros Hm Hk s H. unfold bind. specialize (Hm s H).
  destruct (m s) as [[e | a] s']; simpl in *; [exact Hm | now apply Hk].
Qed.

Lemma inv_try_catch {A} (m : M A) (handler : exn -> M A) :
  inv P m -> (forall e, inv P (handler e)) -> inv P (try_catch m handler).
Proof.
  intros Hm Hh s H. unfold try_catch. specialize (Hm s H).
  destruct (m s) as [[e | a] s']; simpl in *; [now apply Hh | exact Hm].
Qed.

Lemma inv_get_this : inv P get_this.
Proof. intros s H. exact H. Qed.

Lemma inv_history : inv P history.
Proof. intros s H. exact H. Qed.

Lemma inv_deref l : inv P (deref l).
Proof. intros s H. exact H. Qed.

Lemma inv_await {A} (r : reply A) : inv P (await r).
Proof. destruct r; intros s H; exact H. Qed.

Lemma inv_lift_result {A} (r : exn + A) : inv P (lift_result r).
Proof. destruct r; intros s H; exact H. Qed.

Lemma inv_emit e : ignores_log P -> inv P (emit e).
Proof. intros HP s H. now apply HP. Qed.

Lemma inv_assign f : ignores_assign P f -> inv P (assign f).
Proof. intros HP s H. now apply HP. Qed.

Lemma inv_store l c : ignores_heap P -> inv P (store l c).
Proof. intros HP s H. now apply HP. Qed.

Lemma inv_alloc c : ignores_heap P -> inv P (alloc c).
Proof. intros HP s H. now apply HP. Qed.

End Invariants.

Create HintDb inv discriminated.

(** One step through a computation, by its shape. *)
Ltac inv_step :=
  lazymatch goal with
  | |- inv _ (bind _ _) => apply inv_bind; [ | intros ? ]
  | |- inv _ (try_catch _ _) => apply inv_try_catch; [ | intros ? ]
  | |- inv _ (ret _) => apply inv_ret
  | |- inv _ (throw _) => apply inv_throw
  | |- inv _ get_this => apply inv_get_this
  | |- inv _ history => apply inv_history
  | |- inv _ (deref _) => apply inv_deref
  | |- inv _ (await _) => apply inv_await
  | |- inv _ (lift_result _) => apply inv_lift_result
  | |- inv _ (emit _) => apply inv_emit; solve [eauto with inv]
  | |- inv _ (assign _) => apply inv_assign; solve [eauto with inv]
  | |- inv _ (store _ _) => apply inv_store; solve [eauto with inv]
  | |- inv _ (alloc _) => apply inv_alloc; solve [eauto with inv]
  | |- inv _ (match ?x with _ => _ end) => destruct x
  | |- inv _ _ => solve [eauto with inv]
  end.

Ltac inv_auto := repeat inv_step.

(** Every method keeps an invariant that tolerates the writes it makes. *)
Section MethodInvariants.

Variable env : Env.
Variable P : State -> Prop.
Hypothesis P_log : ignores_log P.

Local Hint Resolve P_log : inv.

Lemma inv_gl_call gl c : inv P (gl_call env gl c).
Proof. unfold gl_call. inv_auto. Qed.

Lemma inv_this_gl c : inv P (this_gl env c).
Proof. unfold this_gl, gl_call. inv_auto. Qed.

Lemma inv_this_camera_getView : inv P (this_camera_getView env).
Proof. unfold this_camera_getView. inv_auto. Qed.

Lemma inv_this_camera_getPerspective : inv P (this_camera_getPerspective env).
Proof. unfold this_camera_getPerspective. inv_auto. Qed.

Local Hint Resolve inv_gl_call inv_this_gl inv_this_camera_getView
  inv_this_camera_getPerspective : inv.

Lemma inv_render_loop keys : inv P (render_loop env keys).
Proof. induction keys as [| key keys IH]; simpl; inv_auto. Qed.

Local Hint Resolve inv_render_loop : inv.

Lemma inv_render : inv P (render env).
Proof. unfold render. inv_auto. Qed.

Lemma inv_convertWorldToDisplayCoordinates v :
  inv P (convertWorldToDisplayCoordinates env v).
Proof. unfold convertWorldToDisplayCoordinates, getWidth, getHeight. inv_auto. Qed.

Lemma inv_setWidth w : ignores_assign P (set_width w) -> inv P (setWidth w).
Proof. intros H. unfold setWidth, style_setProperty. inv_auto. Qed.

Lemma inv_setHeight h : ignores_assign P (set_height h) -> inv P (setHeight h).
Proof. intros H. unfold setHeight, style_setProperty. inv_auto. Qed.

Lemma inv_setBackgroundColor c :
  ignores_assign P (set_backgroundColor c) -> inv P (setBackgroundColor c).
Proof. intros H. unfold setBackgroundColor, style_setProperty. inv_auto. Qed.

Hypothesis P_container : forall c, ignores_assign P (set_container c).

Local Hint Resolve P_container : inv.

Lemma inv_getContainer : inv P (getContainer env).
Proof. unfold getContainer. inv_auto. Qed.

Lemma inv_setContainer c : inv P (setContainer c).
Proof. unfold setContainer. inv_auto. Qed.

Lemma inv_setContainerById id : inv P (setContainerById env id).
Proof. unfold setContainerById, setContainer. inv_auto. Qed.

Lemma inv_addShaders f v :
  (forall a, ignores_assign P (set_vertexPositionAttribute a)) ->
  (forall a, ignores_assign P (set_vertexColorAttribute a)) ->
  (forall a, ignores_assign P (set_shaderProgram a)) ->
  inv P (addShaders env f v).
Proof. intros H1 H2 H3. unfold addShaders. inv_auto. Qed.

Lemma inv_init :
  (forall a, ignores_assign P (set_canvas a)) ->
  (forall a, ignores_assign P (set_gl a)) ->
  (forall a, ignores_assign P (set_camera a)) ->
  inv P (init env).
Proof.
  intros H1 H2 H3.
  unfold init, goog_dom_createDom, getBackgroundColor, getWidth, getHeight,
    style_setProperty, goog_dom_appendChild, canvas_getContext_, new_X_camera.
  pose proof inv_getContainer. inv_auto.
Qed.

Lemma inv_addObject object :
  (forall o, inv P (addObject_colors o)) ->
  ignores_assign P (fun r => set_id (incr (_id r)) r) ->
  (forall k v, ignores_assign P (fun r => set_objects (Map_set (_objects r) k v) r)) ->
  (forall k v,
     ignores_assign P (fun r => set_vertexBuffers (Map_set (_vertexBuffers r) k v) r)) ->
  (forall k v,
     ignores_assign P (fun r => set_colorBuffers (Map_set (_colorBuffers r) k v) r)) ->
  inv P (addObject env object).
Proof.
  intros H0 H1 H2 H3 H4.
  unfold addObject, X_object_points, X_object_get, X_points_flatten, X_points_count,
    X_points_get, X_colors_flatten, X_colors_count, X_colors_get.
  inv_auto.
Qed.

(** The resolution of the colors writes to the heap only. *)
Hypothesis P_heap : ignores_heap P.

Local Hint Resolve P_heap : inv.

Lemma inv_add_colors_loop fuel object colors c i :
  inv P (add_colors_loop fuel object colors c i).
Proof.
  revert i. induction fuel as [| fuel IH]; intros i; simpl.
  - inv_auto.
  - unfold X_object_points, X_object_get, X_points_count, X_points_get,
      X_colors_add, X_colors_get. inv_auto.
Qed.

Local Hint Resolve inv_add_colors_loop : inv.

Lemma inv_addObject_colors object : inv P (addObject_colors object).
Proof.
  unfold addObject_colors, X_object_color, X_object_points, X_object_colors,
    X_object_get, X_points_count, X_points_get, X_colors_count, X_colors_get,
    new_X_colors.
  inv_auto.
Qed.

End MethodInvariants.

(** ** Symbolic execution *)

(** The monad and the calls to the collaborators, unfolded. *)
Ltac unfold_monad :=
  unfold returning, goog_dom_createDom, style_setProperty, goog_dom_appendChild,
    canvas_getContext_, this_gl, gl_call, new_X_camera, this_camera_getView,
    this_camera_getPerspective, getWidth, getHeight, getBackgroundColor,
    getDimension, X_object_color, X_object_points, X_object_colors, X_object_get,
    X_points_count, X_points_flatten, X_points_get, X_colors_count,
    X_colors_flatten, X_colors_add, X_colors_get, new_X_colors, lift_result,
    await, bind, try_catch, ret, throw, get_this, assign, history, emit, deref,
    store, alloc in *.

(** Case analysis on whatever blocks the execution, innermost first. *)
Ltac stuck_term t :=
  lazymatch t with
  | context [match ?x with _ => _ end] => stuck_term x
  | _ => t
  end.

Ltac sym_step :=
  match goal with
  | H : ?t = _ |- context [match ?t with _ => _ end] => rewrite H
  | |- context [match ?x with _ => _ end] =>
    let y := stuck_term x in
    lazymatch y with
    | render_loop _ _ _ => fail
    | add_colors_loop _ _ _ _ _ _ => fail
    | addObject_colors _ _ => fail
    | _ => destruct y eqn:?
    end
  end; simpl in *.

Ltac sym_exec := simpl in *; repeat sym_step.

Lemma not_Some_None {A} (o : option A) : ~ is_Some o -> o = None.
Proof. destruct o; [intros H; exfalso; apply H; eauto | reflexivity]. Qed.

(** ** The live fields: canvas, context and camera *)

Section Live.

Variable env : Env.

(** What [init] does, by its outcome: when it throws the three fields are
    what they were; when it returns, either the canvas existed and nothing
    happened at all, or every step from the creation of the canvas to the
    construction of the camera was taken and the three fields hold their
    results. *)
Lemma init_outcome s :
  match fst (init env s) with
  | inl e => live (this (snd (init env s))) = live (this s)
  | inr _ =>
    (is_Some (_canvas (this s)) /\ snd (init env s) = s) \/
    (_canvas (this s) = None /\
     exists canvas container gl camera,
       live (this (snd (init env s))) = (Some canvas, Some gl, Some camera) /\
       log (snd (init env s)) = log s ++ init_steps (this s) canvas container gl)
  end.
Proof.
  unfold init, getContainer. unfold_monad.
  destruct (bool_decide (is_Some (_canvas (this s)))) eqn:Hc.
  - left. apply bool_decide_eq_true in Hc. simpl. auto.
  - apply bool_decide_eq_false, not_Some_None in Hc.
    sym_exec; try reflexivity; right; (split; [exact Hc | ]);
      do 4 eexists; (split; [reflexivity | ]);
      unfold init_steps; rewrite <- !app_assoc; reflexivity.
Qed.

Lemma exec_keeps_live c s :
  c <> call_init -> live (this (snd (exec env c s))) = live (this s).
Proof.
  intros Hc.
  set (P := fun s' : State => live (this s') = live (this s)).
  assert (ignores_log P) as Hlog by (intros ? ? H; exact H).
  assert (ignores_heap P) as Hheap by (intros ? ? H; exact H).
  assert (inv P (exec env c)) as Hinv.
  { destruct c; try congruence; simpl; unfold returning;
      try (apply inv_bind; [ | intros ?; apply inv_ret ]);
      [ apply inv_setWidth | apply inv_setHeight | apply inv_setBackgroundColor
      | apply inv_getContainer | apply inv_setContainer | apply inv_setContainerById
      | apply inv_addShaders | apply inv_addObject | apply inv_render
      | apply inv_convertWorldToDisplayCoordinates | intros s' H; exact H ];
      try (intros o; apply inv_addObject_colors);
      first [ exact Hlog | exact Hheap
            | solve [intros ? ? ? H; exact H]
            | solve [intros ? ? H; exact H]
            | solve [intros ? H; exact H] ]. }
  apply Hinv. reflexivity.
Qed.

Lemma all_live_of_live r canvas gl camera :
  live r = (Some canvas, Some gl, Some camera) -> all_live r.
Proof. unfold live, all_live. intros [= -> -> ->]. eauto. Qed.



Lemma init_with_canvas s :
  is_Some (_canvas (this s)) -> init env s = (inr tt, s).
Proof.
  intros H. unfold init. unfold_monad.
  rewrite bool_decide_eq_true_2 by exact H. reflexivity.
Qed.

(** C4: on a renderer whose canvas exists, [init] returns at once: no
    exception, and the state it leaves is the state it found, fields, heap
    and log of collaborator calls alike. *)
Theorem init_idempotent s :
  is_Some (_canvas (this s)) -> init env s = (inr tt, s).
Proof. apply init_with_canvas. Qed.

(** A second call of [init] after one that returned changes nothing. *)
Lemma init_twice s :
  fst (init env s) = inr tt ->
  init env (snd (init env s)) = (inr tt, snd (init env s)).
Proof.
  intros E. apply init_with_canvas.
  pose proof (init_outcome s) as H. rewrite E in H.
  destruct H as [[H ->] | [_ (canvas & container & gl & camera & H & _)]].
  - exact H.
  - unfold live in H. injection H as -> _ _. eauto.
Qed.

(** C9: on a renderer whose canvas, context or camera is [null], [addObject]
    and [render] throw the not-initialized exception and leave the state as
    it was: no registry entry, no buffer, no call to any collaborator. *)
Theorem addObject_render_before_init s object :
  _canvas (this s) = None \/ _gl (this s) = None \/ _camera (this s) = None ->
  (exists e, addObject env object s = (inl e, s) /\ NotInitializedError e) /\
  (exists e, render env s = (inl e, s) /\ NotInitializedError e).
Proof.
  intros H. unfold addObject, render, NotInitializedError. unfold_monad.
  destruct (_canvas (this s)), (_gl (this s)), (_camera (this s)); simpl;
    try (destruct H as [H | [H | H]]; discriminate H);
    split; eexists; split; try reflexivity; auto.
Qed.

End Live.


Lemma init_idempotent_witness : init demo_env demo_state = (inr tt, demo_state).
Proof. apply init_idempotent. vm_compute. eauto. Defined.

Lemma addObject_render_before_init_witness :
  (exists e, addObject demo_env (Some 0%nat) (initial 100 100 demo_heap) =
               (inl e, initial 100 100 demo_heap) /\ NotInitializedError e) /\
  (exists e, render demo_env (initial 100 100 demo_heap) =
               (inl e, initial 100 100 demo_heap) /\ NotInitializedError e).
Proof. apply addObject_render_before_init. left. reflexivity. Defined.

(** ** render *)

Section Render.

Variable env : Env.

(** The loop over the keys never returns: it ends by the iterator's
    [StopIteration], or by an error in its body. *)
Lemma render_loop_throws keys s :
  exists e, fst (render_loop env keys s) = inl e /\
            (e = StopIteration \/ exists msg, e = Error msg).
Proof.
  revert s. induction keys as [| key keys IH]; intros s; simpl.
  - eexists; split; [reflexivity | auto].
  - unfold_monad. unfold TypeError.
    sym_exec; try (eexists; split; [reflexivity | eauto]); apply IH.
Qed.

(** Past the test of the live fields, what [render] throws is an error of a
    collaborator or a [TypeError]: the iterator's [StopIteration] is
    absorbed, and no [X.exception] is thrown. *)
Lemma render_thrown s e :
  all_live (this s) -> fst (render env s) = inl e -> exists msg, e = Error msg.
Proof.
  destruct s as [[] h l].
  intros ([canvas Hc] & [gl Hg] & [cam Hm]). simpl in *. subst.
  unfold render. unfold_monad.
  sym_exec; try (intros [= <-]; eauto).
  match goal with
  | |- context [render_loop env ?k ?s'] =>
    destruct (render_loop_throws k s') as (e' & H & He);
    destruct (render_loop env k s') as [[e'' | []] s'']; simpl in H;
    [injection H as -> | discriminate H]
  end.
  destruct He as [-> | [msg ->]]; simpl.
  - discriminate.
  - intros [= <-]. eauto.
Qed.

Lemma extends_log_ignores_log l0 : ignores_log (extends_log l0).
Proof.
  intros s e [rest H]. exists (rest ++ [e]). simpl. rewrite H.
  now rewrite app_assoc.
Qed.

Lemma render_loop_extends_log keys s l0 :
  extends_log l0 s -> extends_log l0 (snd (render_loop env keys s)).
Proof. apply inv_render_loop, extends_log_ignores_log. Qed.

(** C7: on an initialized renderer with an empty registry, once the seven
    calls [render] issues have been answered, it returns normally; the fields
    and the heap are as before, and the calls it issued are exactly: one
    clear of the color and depth buffers, the two questions to the camera,
    and for each of the projection and the view one lookup of the uniform and
    one upload of the matrix to the location that was looked up.  No draw
    call: the end of the iteration is absorbed.  Nothing is assumed of the
    collaborators but the answers to these seven calls. *)
Theorem render_empty_registry s canvas gl cam
    cleared perspective view perspectiveLocation uploaded viewLocation uploaded' :
  live (this s) = (Some canvas, Some gl, Some cam) ->
  _objects (this s) = [] ->
  gl_reply env (log s) gl (clear (Z.lor COLOR_BUFFER_BIT DEPTH_BUFFER_BIT)) =
    Returns cleared ->
  camera_getPerspective env
    (log s ++ [GL gl (clear (Z.lor COLOR_BUFFER_BIT DEPTH_BUFFER_BIT))]) cam =
    Returns perspective ->
  camera_getView env
    (log s ++ [GL gl (clear (Z.lor COLOR_BUFFER_BIT DEPTH_BUFFER_BIT));
               CameraGetPerspective cam]) cam = Returns view ->
  gl_reply env
    (log s ++ [GL gl (clear (Z.lor COLOR_BUFFER_BIT DEPTH_BUFFER_BIT));
               CameraGetPerspective cam;
               CameraGetView cam]) gl
    (getUniformLocation (_shaderProgram (this s)) "perspective") =
    Returns perspectiveLocation ->
  gl_reply env
    (log s ++ [GL gl (clear (Z.lor COLOR_BUFFER_BIT DEPTH_BUFFER_BIT));
               CameraGetPerspective cam;
               CameraGetView cam;
               GL gl (getUniformLocation (_shaderProgram (this s)) "perspective")]) gl
    (uniformMatrix4fv perspectiveLocation false
       (Float32Array (matrix_flatten env perspective))) = Returns uploaded ->
  gl_reply env
    (log s ++ [GL gl (clear (Z.lor COLOR_BUFFER_BIT DEPTH_BUFFER_BIT));
               CameraGetPerspective cam;
               CameraGetView cam;
               GL gl (getUniformLocation (_shaderProgram (this s)) "perspective");
               GL gl (uniformMatrix4fv perspectiveLocation false
                        (Float32Array (matrix_flatten env perspective)))]) gl
    (getUniformLocation (_shaderProgram (this s)) "view") = Returns viewLocation ->
  gl_reply env
    (log s ++ [GL gl (clear (Z.lor COLOR_BUFFER_BIT DEPTH_BUFFER_BIT));
               CameraGetPerspective cam;
               CameraGetView cam;
               GL gl (getUniformLocation (_shaderProgram (this s)) "perspective");
               GL gl (uniformMatrix4fv perspectiveLocation false
                        (Float32Array (matrix_flatten env perspective)));
               GL gl (getUniformLocation (_shaderProgram (this s)) "view")]) gl
    (uniformMatrix4fv viewLocation false
       (Float32Array (matrix_flatten env view))) = Returns uploaded' ->
  render env s =
    (inr tt,
     mk_state (this s) (heap s)
       (log s ++
        [GL gl (clear (Z.lor COLOR_BUFFER_BIT DEPTH_BUFFER_BIT));
         CameraGetPerspective cam;
         CameraGetView cam;
         GL gl (getUniformLocation (_shaderProgram (this s)) "perspective");
         GL gl (uniformMatrix4fv perspectiveLocation false
                  (Float32Array (matrix_flatten env perspective)));
         GL gl (getUniformLocation (_shaderProgram (this s)) "view");
         GL gl (uniformMatrix4fv viewLocation false
                  (Float32Array (matrix_flatten env view)))])).
Proof.
  destruct s as [[cn dm w ht bg ct cv g cm objs vbs cbs i vpa vca sp] h l].
  unfold live. simpl.
  intros [= -> -> ->] -> Hclear Hpersp Hview Hploc Hpup Hvloc Hvup.
  unfold render. unfold_monad. simpl.
  rewrite Hclear. simpl. rewrite Hpersp. simpl.
  rewrite <- app_assoc. simpl. rewrite Hview. simpl.
  rewrite <- app_assoc. simpl. rewrite Hploc. simpl.
  rewrite <- app_assoc. simpl. rewrite Hpup. simpl.
  rewrite <- app_assoc. simpl. rewrite Hvloc. simpl.
  rewrite <- app_assoc. simpl. rewrite Hvup. simpl.
  rewrite <- app_assoc. reflexivity.
Qed.

(** C10: the test at the head of [render] looks at the canvas, the context
    and the camera, not at the shader program.  On an initialized renderer
    whose [_shaderProgram] is still [undefined], [render] does not throw the
    not-initialized exception; once the clear and the two questions to the
    camera have been answered, it looks up the uniform [perspective] in the
    program [undefined]. *)
Theorem render_without_shader_program s canvas gl cam :
  live (this s) = (Some canvas, Some gl, Some cam) ->
  _shaderProgram (this s) = undefined ->
  (forall e, fst (render env s) = inl e -> ~ NotInitializedError e) /\
  (forall v perspective view,
     gl_reply env (log s) gl (clear (Z.lor COLOR_BUFFER_BIT DEPTH_BUFFER_BIT)) =
       Returns v ->
     camera_getPerspective env
       (log s ++ [GL gl (clear (Z.lor COLOR_BUFFER_BIT DEPTH_BUFFER_BIT))]) cam =
       Returns perspective ->
     camera_getView env
       (log s ++ [GL gl (clear (Z.lor COLOR_BUFFER_BIT DEPTH_BUFFER_BIT));
                  CameraGetPerspective cam]) cam = Returns view ->
     exists rest,
       log (snd (render env s)) =
         log s ++
         [GL gl (clear (Z.lor COLOR_BUFFER_BIT DEPTH_BUFFER_BIT));
          CameraGetPerspective cam;
          CameraGetView cam;
          GL gl (getUniformLocation undefined "perspective")] ++ rest).
Proof.
  intros Hlive Hprog. split.
  - intros e E [-> | ->];
      (destruct (render_thrown s _ (all_live_of_live _ _ _ _ Hlive) E) as [msg H];
       discriminate H).
  - destruct s as [[] h l]. unfold live in Hlive. simpl in *.
    injection Hlive as -> -> ->. subst.
    intros v perspective view Hclear Hpersp Hview.
    unfold render. unfold_monad. simpl.
    rewrite Hclear. simpl. rewrite Hpersp. simpl.
    rewrite <- app_assoc. simpl. rewrite Hview. simpl.
    sym_exec; rewrite <- ?app_assoc; simpl; try (eexists; reflexivity).
    match goal with
    | |- context [render_loop env ?k ?s'] =>
      pose proof (render_loop_extends_log k s' (log s')) as H;
      destruct (render_loop env k s') as [[e'' | []] s'']
    end; simpl in *.
    + destruct H as [rest H]; [exists []; now rewrite app_nil_r | ].
      destruct (bool_decide (e'' <> StopIteration)); simpl; rewrite H;
        rewrite <- ?app_assoc; simpl; eexists; reflexivity.
    + destruct H as [rest H]; [exists []; now rewrite app_nil_r | ].
      rewrite H. rewrite <- ?app_assoc; simpl; eexists; reflexivity.
Qed.

End Render.

Lemma demo_gl_returns : gl_returns demo_env.
Proof. intros h gl c. eexists. reflexivity. Qed.

Lemma demo_camera_returns : camera_returns demo_env.
Proof. intros h cam. split; eexists; reflexivity. Qed.

Lemma render_empty_registry_witness :
  render demo_env demo_state =
    (inr tt,
     mk_state (this demo_state) (heap demo_state)
       (log demo_state ++
        [GL 7%nat (clear (Z.lor COLOR_BUFFER_BIT DEPTH_BUFFER_BIT));
         CameraGetPerspective 3%nat;
         CameraGetView 3%nat;
         GL 7%nat (getUniformLocation (_shaderProgram (this demo_state)) "perspective");
         GL 7%nat (uniformMatrix4fv (JObj 15%nat) false
                  (Float32Array (matrix_flatten demo_env (createIdentityMatrix 4))));
         GL 7%nat (getUniformLocation (_shaderProgram (this demo_state)) "view");
         GL 7%nat (uniformMatrix4fv (JObj 17%nat) false
                  (Float32Array (matrix_flatten demo_env half_view)))])).
Proof.
  apply (render_empty_registry demo_env demo_state 1%nat 7%nat 3%nat
           undefined (createIdentityMatrix 4) half_view
           (JObj 15%nat) undefined (JObj 17%nat) undefined);
    vm_compute; reflexivity.
Defined.

Lemma render_without_shader_program_witness :
  (forall e, fst (render demo_env demo_state) = inl e -> ~ NotInitializedError e) /\
  In (GL 7%nat (getUniformLocation undefined "perspective"))
     (log (snd (render demo_env demo_state))).
Proof.
  destruct (render_without_shader_program demo_env demo_state 1%nat 7%nat 3%nat)
    as [H1 H2]; [reflexivity | reflexivity | ].
  split; [exact H1 | ].
  destruct (H2 undefined (createIdentityMatrix 4) half_view) as [rest H];
    [reflexivity | reflexivity | reflexivity | ].
  rewrite H. apply in_or_app. right. simpl. auto.
Defined.

(** ** addObject: the resolution of the colors *)

Lemma lookup_insert_fresh (h : gmap loc cell) (l : loc) (c new : cell) :
  h !! l = Some c -> <[fresh (dom h) := new]> h !! l = Some c.
Proof.
  intros H. rewrite lookup_insert_ne; [exact H | ].
  intros <-. apply (is_fresh (dom h)). apply elem_of_dom. eauto.
Qed.

Lemma lookup_insert_fresh_points (h : gmap loc cell) (l : loc) cs ps :
  <[fresh (dom h) := CColors cs]> h !! l = Some (CPoints ps) ->
  h !! l = Some (CPoints ps).
Proof.
  intros H. apply lookup_insert_Some in H as [[_ H] | [_ H]];
    [discriminate H | exact H].
Qed.

Lemma fresh_not_in_heap (h : gmap loc cell) : h !! fresh (dom h) = None.
Proof. apply not_elem_of_dom, is_fresh. Qed.

(** The loop, entered at [i] with enough fuel, appends the color once for
    each of the remaining points and returns. *)
Lemma add_colors_loop_run fuel object colors c i s o ps cs :
  heap s !! object = Some (CObject o) ->
  heap s !! object_points o = Some (CPoints ps) ->
  heap s !! colors = Some (CColors cs) ->
  (length ps - i < fuel)%nat ->
  add_colors_loop fuel object colors c i s =
    (inr tt,
     mk_state (this s)
       (<[colors := CColors (cs ++ replicate (length ps - i) c)]> (heap s))
       (log s)).
Proof.
  revert i s cs. induction fuel as [| fuel IH]; intros i s cs Ho Hp Hc Hfuel.
  - lia.
  - simpl. unfold_monad. rewrite Ho. simpl. rewrite Hp. simpl.
    destruct (i <? length ps)%nat eqn:Hi.
    + apply Nat.ltb_lt in Hi. rewrite Hc. simpl.
      rewrite (IH (S i) _ (cs ++ [c])); simpl.
      * rewrite insert_insert_eq. rewrite <- app_assoc.
        replace (length ps - i)%nat with (S (length ps - S i)) by lia.
        reflexivity.
      * rewrite lookup_insert_ne; [exact Ho | congruence].
      * rewrite lookup_insert_ne; [exact Hp | congruence].
      * apply lookup_insert_eq.
      * lia.
    + apply Nat.ltb_ge in Hi.
      replace (length ps - i)%nat with 0%nat by lia. simpl.
      rewrite app_nil_r. rewrite insert_id by exact Hc.
      destruct s; reflexivity.
Qed.

Local Opaque add_colors_loop.

(** What the resolution of the colors returns, when it returns: the fields
    and the log are untouched; with an object color, or with point colors
    that do not match the points, [colors] is a container allocated at a
    location the heap did not use, holding the color once per point; with no
    object color and matching point colors it is the object's own container
    and the heap is untouched. *)
Lemma addObject_colors_returns object s colors s' :
  addObject_colors object s = (inr colors, s') ->
  exists o ps,
    heap s !! object = Some (CObject o) /\
    heap s !! object_points o = Some (CPoints ps) /\
    this s' = this s /\ log s' = log s /\
    let l := fresh (dom (heap s)) in
    match object_color o with
    | Some c =>
      colors = Some l /\
      heap s' = <[l := CColors (replicate (length ps) c)]> (heap s)
    | None =>
      exists pcs,
        heap s !! object_colors o = Some (CColors pcs) /\
        if decide (length pcs = length ps)
        then colors = Some (object_colors o) /\ heap s' = heap s
        else colors = Some l /\
             heap s' =
               <[l := CColors (replicate (length ps) (new_X_color 1 1 1))]> (heap s)
    end.
Proof.
  destruct s as [r h l]. unfold addObject_colors. unfold_monad. simpl.
  repeat first
    [ match goal with
      | H : ?h !! ?k = Some ?c
        |- context [<[fresh (dom ?h) := ?new]> ?h !! ?k] =>
        rewrite (lookup_insert_fresh h k c new H); simpl
      end
    | sym_step ];
    try discriminate; intros E; simplify_eq.
  - (* an object color *)
    match goal with
    | H : <[_ := _]> _ !! _ = Some (CPoints _) |- _ =>
      apply lookup_insert_fresh_points in H
    end.
    erewrite add_colors_loop_run in E;
      [ | simpl; apply lookup_insert_fresh; eassumption
        | simpl; apply lookup_insert_fresh; eassumption
        | simpl; apply lookup_insert_eq
        | lia ].
    simpl in E. simplify_eq. simpl.
    exists o, ps. rewrite Heqo0, insert_insert_eq, Nat.sub_0_r.
    repeat split; auto.
  - (* no object color, point colors that do not match *)
    erewrite add_colors_loop_run in E;
      [ | simpl; apply lookup_insert_fresh; eassumption
        | simpl; apply lookup_insert_fresh; eassumption
        | simpl; apply lookup_insert_eq
        | lia ].
    simpl in E. simplify_eq. simpl.
    exists o, ps. rewrite Heqo0, insert_insert_eq, Nat.sub_0_r.
    repeat (split; [assumption || reflexivity | ]).
    exists cs. split; [assumption | ].
    apply negb_true_iff, Nat.eqb_neq in Heqb.
    destruct (decide (length cs = length ps)); [congruence | auto].
  - (* no object color, matching point colors *)
    simpl. exists o, ps. rewrite Heqo0.
    repeat (split; [assumption || reflexivity | ]).
    exists cs. split; [assumption | ].
    apply negb_false_iff, Nat.eqb_eq in Heqb.
    destruct (decide (length cs = length ps)); [auto | congruence].
Qed.

Lemma addObject_colors_resolved object s colors s' :
  addObject_colors object s = (inr colors, s') ->
  exists o ps pcs l cs,
    colors = Some l /\ colors_resolved s s' object o ps pcs l cs.
Proof.
  intros E. apply addObject_colors_returns in E.
  destruct E as (o & ps & Ho & Hp & Hthis & Hlog & E). simpl in E.
  unfold colors_resolved, color_policy, colorsValid.
  destruct (object_color o) as [c | ] eqn:Hc.
  - destruct E as [-> E].
    exists o, ps, [], (fresh (dom (heap s))), (replicate (length ps) c).
    rewrite E, lookup_insert_eq, Hc.
    repeat (split; [assumption || reflexivity || (intros [=]) | ]).
    right. split; [intros [[=] _] | ].
    split; [apply fresh_not_in_heap | reflexivity].
  - destruct E as (pcs & Hpcs & E).
    destruct (decide (length pcs = length ps)) as [Hlen | Hlen].
    + destruct E as [-> E]. exists o, ps, pcs, (object_colors o), pcs.
      rewrite E, Hc.
      destruct (decide (length pcs = length ps)); [ | contradiction].
      repeat (split; [assumption || reflexivity || auto | ]).
      left. auto.
    + destruct E as [-> E].
      exists o, ps, pcs, (fresh (dom (heap s))),
        (replicate (length ps) (new_X_color 1 1 1)).
      rewrite E, lookup_insert_eq, Hc.
      destruct (decide (length pcs = length ps)); [contradiction | ].
      repeat (split; [assumption || reflexivity || auto | ]).
      right. split; [intros [_ H]; contradiction | ].
      split; [apply fresh_not_in_heap | reflexivity].
Qed.

Local Transparent add_colors_loop.

(** The resolution of the colors leaves every cell of the heap it found as
    it was, whatever its outcome. *)
Lemma add_colors_loop_frame (h0 : gmap loc cell) fuel object colors c i :
  h0 !! colors = None ->
  inv (fun s => h0 ⊆ heap s) (add_colors_loop fuel object colors c i).
Proof.
  intros Hfresh. revert i.
  induction fuel as [| fuel IH]; intros i s Hs; simpl.
  - exact Hs.
  - unfold bind at 1. unfold X_object_points, X_object_get. unfold_monad.
    destruct (heap s !! object) as [[] | ]; simpl; try exact Hs.
    destruct (heap s !! _) as [[] | ]; simpl; try exact Hs.
    destruct (_ <? _)%nat; simpl; try exact Hs.
    destruct (heap s !! colors) as [[] | ]; simpl; try exact Hs.
    apply IH. simpl. apply insert_subseteq_r; assumption.
Qed.

Local Opaque add_colors_loop.

Lemma addObject_colors_frame (h0 : gmap loc cell) object :
  inv (fun s => h0 ⊆ heap s) (addObject_colors object).
Proof.
  intros s Hs.
  assert (h0 !! fresh (dom (heap s)) = None) as Hfresh.
  { eapply lookup_weaken_None; [apply fresh_not_in_heap | exact Hs]. }
  assert (h0 ⊆ <[fresh (dom (heap s)) := CColors []]> (heap s)) as Hs'.
  { apply insert_subseteq_r; assumption. }
  pose proof (add_colors_loop_frame h0) as Hloop.
  unfold addObject_colors. unfold_monad.
  repeat first
    [ match goal with
      | |- context [add_colors_loop ?f ?ob ?cl ?c ?i ?s1] =>
        let H := fresh "H" in
        pose proof (Hloop f ob cl c i Hfresh s1 Hs') as H; simpl in H;
        destruct (add_colors_loop f ob cl c i s1) as [[? | ?] ?]
      end
    | sym_step ]; simpl; assumption.
Qed.

Local Transparent add_colors_loop.

(** The loop never runs out of fuel, and so neither does the resolution of
    the colors: the fuel is one more than the turns the loop can take. *)
Lemma add_colors_loop_fuel fuel object colors c i s o ps :
  heap s !! object = Some (CObject o) ->
  heap s !! object_points o = Some (CPoints ps) ->
  (length ps - i < fuel)%nat ->
  fst (add_colors_loop fuel object colors c i s) <> inl OutOfFuel.
Proof.
  intros Ho Hp Hfuel.
  destruct (heap s !! colors) as [[ | | cs | ] | ] eqn:Hc;
    try (erewrite add_colors_loop_run by eassumption; discriminate).
  all: destruct fuel as [| fuel]; [lia | ].
  all: simpl; unfold_monad; rewrite Ho; simpl; rewrite Hp; simpl.
  all: destruct (i <? length ps)%nat; simpl; [rewrite Hc; simpl | ]; discriminate.
Qed.

Local Opaque add_colors_loop.

Lemma addObject_colors_never_OutOfFuel object s :
  fst (addObject_colors object s) <> inl OutOfFuel.
Proof.
  destruct s as [r h l]. unfold addObject_colors. unfold_monad. unfold TypeError.
  simpl.
  repeat first
    [ match goal with
      | H : ?h !! ?k = Some ?c
        |- context [<[fresh (dom ?h) := ?new]> ?h !! ?k] =>
        rewrite (lookup_insert_fresh h k c new H); simpl
      end
    | sym_step ];
    try discriminate.
  all: match goal with
       | |- context [add_colors_loop ?f ?ob ?cl ?c ?i ?s1] =>
         let H := fresh "H" in
         assert (fst (add_colors_loop f ob cl c i s1) <> inl OutOfFuel) as H
           by (eapply add_colors_loop_fuel; simpl;
               [ first [eassumption | apply lookup_insert_fresh; eassumption]
               | first [eassumption | apply lookup_insert_fresh; eassumption]
               | lia ]);
         destruct (add_colors_loop f ob cl c i s1) as [[? | ?] ?]; simpl in *;
         congruence
       end.
Qed.

Section Fuel.

Variable env : Env.

(** [OutOfFuel] is not an outcome of [addObject]. *)
Lemma addObject_never_OutOfFuel object s :
  fst (addObject env object s) <> inl OutOfFuel.
Proof.
  destruct s as [[] h lg]. unfold addObject. unfold_monad. unfold TypeError. simpl.
  repeat first
    [ match goal with
      | |- context [addObject_colors ?l ?s0] =>
        let H := fresh "H" in
        pose proof (addObject_colors_never_OutOfFuel l s0) as H;
        destruct (addObject_colors l s0) as [[? | ?] ?]; simpl in *;
        [ congruence | clear H ]
      end
    | sym_step ];
    discriminate.
Qed.

End Fuel.

Lemma colors_resolved_frame s s' object o ps pcs colors cs k c :
  colors_resolved s s' object o ps pcs colors cs ->
  heap s !! k = Some c -> heap s' !! k = Some c.
Proof.
  intros (_ & _ & _ & _ & _ & _ & _ & [(_ & _ & ->) | (_ & Hnone & ->)]) Hk.
  - exact Hk.
  - rewrite lookup_insert_ne; [exact Hk | congruence].
Qed.

(** ** addObject *)

Section AddObject.

Variable env : Env.

(** What a call of [addObject] that returns has done. *)
Lemma addObject_returns object s id :
  fst (addObject env object s) = inr id ->
  exists l o ps pcs colors cs gl glVertexBuffer glColorBuffer,
    object = Some l /\
    _gl (this s) = Some gl /\
    colors_resolved s
      (mk_state (this s) (heap (snd (addObject env object s))) (log s))
      l o ps pcs colors cs /\
    log (snd (addObject env object s)) =
      log s ++
      [GL gl createBuffer;
       GL gl (bindBuffer ARRAY_BUFFER glVertexBuffer);
       GL gl (bufferData ARRAY_BUFFER (Float32Array (points_flatten ps)) STATIC_DRAW);
       GL gl createBuffer;
       GL gl (bindBuffer ARRAY_BUFFER glColorBuffer);
       GL gl (bufferData ARRAY_BUFFER (Float32Array (colors_flatten cs)) STATIC_DRAW)] /\
    id = incr (_id (this s)) /\
    Map_containsKey (_objects (this s)) id = false /\
    this (snd (addObject env object s)) =
      set_colorBuffers
        (Map_set (_colorBuffers (this s)) id (new_X_buffer glColorBuffer (length cs) 4))
        (set_vertexBuffers
           (Map_set (_vertexBuffers (this s)) id
              (new_X_buffer glVertexBuffer (length ps) 3))
           (set_objects (Map_set (_objects (this s)) id l)
              (set_id id (this s)))).
Proof.
  destruct s as [[cn dm w ht bg ct cv g cm objs vbs cbs i vpa vca sp] h lg].
  unfold addObject. unfold_monad. simpl.
  destruct cv, g as [gl | ], cm; simpl; try discriminate.
  destruct object as [l | ]; simpl; try discriminate.
  destruct (h !! l) as [[o0 | | | ] | ] eqn:Hl; simpl; try discriminate.
  match goal with
  | |- context [addObject_colors l ?s0] =>
    destruct (addObject_colors l s0) as [[e | colors] [r1 h1 lg1]] eqn:Ec
  end; simpl; try discriminate.
  apply addObject_colors_resolved in Ec.
  destruct Ec as (o & ps & pcs & cl & cs & -> & Hres).
  pose proof Hres as (Ho & Hp & _ & Hthis & Hlog & _ & Hcl & _).
  pose proof (colors_resolved_frame _ _ _ _ _ _ _ _ _ _ Hres Ho) as Ho1.
  pose proof (colors_resolved_frame _ _ _ _ _ _ _ _ _ _ Hres Hp) as Hp1.
  simpl in *. subst r1 lg1.
  sym_exec; try discriminate.
  intros [= <-]. rewrite <- !app_assoc. simpl.
  exists l, o, ps, pcs, cl, cs, gl. do 2 eexists.
  repeat (split; [eassumption || reflexivity | ]). reflexivity.
Qed.

End AddObject.

(** ** goog.structs.Map *)

Lemma Map_containsKey_true {V} (m : Map V) k :
  Map_containsKey m k = true <-> In k (Map_getKeys m).
Proof.
  unfold Map_containsKey. rewrite bool_decide_eq_true.
  induction m as [| [k' v] m IH]; simpl.
  - split; [intros [x H]; discriminate H | intros []].
  - destruct (Z.eqb_spec k k') as [-> | Hne].
    + split; eauto.
    + rewrite IH. split; [auto | intros [H | H]; [congruence | exact H]].
Qed.

Lemma Map_getKeys_set_absent {V} (m : Map V) k v :
  Map_containsKey m k = false -> Map_getKeys (Map_set m k v) = Map_getKeys m ++ [k].
Proof.
  unfold Map_containsKey. rewrite bool_decide_eq_false.
  induction m as [| [k' v'] m IH]; simpl; intros H.
  - reflexivity.
  - destruct (Z.eqb_spec k k') as [-> | Hne].
    + exfalso. apply H. eauto.
    + simpl. f_equal. apply IH. exact H.
Qed.

Lemma Map_get_set {V} (m : Map V) k v : Map_get (Map_set m k v) k = Some v.
Proof.
  induction m as [| [k' v'] m IH]; simpl.
  - now rewrite Z.eqb_refl.
  - destruct (Z.eqb_spec k k') as [-> | Hne]; simpl.
    + now rewrite Z.eqb_refl.
    + destruct (Z.eqb_spec k k'); [contradiction | exact IH].
Qed.

(** ** The identifiers *)

Section Identifiers.

Variable env : Env.

(** A call of [addObject] that throws leaves the registry as it was, and the
    counter too unless the incremented counter was a key already. *)
Lemma addObject_throws object s e :
  fst (addObject env object s) = inl e ->
  _objects (this (snd (addObject env object s))) = _objects (this s) /\
  (_id (this (snd (addObject env object s))) = _id (this s) \/
   (_id (this (snd (addObject env object s))) = incr (_id (this s)) /\
    Map_containsKey (_objects (this s)) (incr (_id (this s))) = true)).
Proof.
  destruct s as [[] h lg]. unfold addObject. unfold_monad. unfold TypeError. simpl.
  repeat first
    [ match goal with
      | |- context [addObject_colors ?l ?s0] =>
        let H := fresh "H" in
        assert (this (snd (addObject_colors l s0)) = this s0) as H
          by (apply (inv_addObject_colors (fun s' => this s' = this s0));
              first [ reflexivity | intros ? ? H'; exact H' ]);
        destruct (addObject_colors l s0) as [[? | ?] [? ? ?]]; simpl in H; subst
      end
    | sym_step ];
    simpl; auto; discriminate.
Qed.

Lemma incr_bounds n : n <= incr n <= n + 1.
Proof. unfold incr. destruct (n <? 2 ^ 53); lia. Qed.

Lemma in_ids k n : In k (List.map Z.of_nat (seq 0 n)) <-> 0 <= k < Z.of_nat n.
Proof.
  rewrite in_map_iff. split.
  - intros (i & <- & Hi). apply in_seq in Hi. lia.
  - intros H. exists (Z.to_nat k). split; [lia | apply in_seq; lia].
Qed.

(** [addObject] keeps the counter and the keys together; when it returns,
    its value is the old counter plus one and the new counter. *)
Lemma addObject_ids object s :
  ids_in_order (this s) ->
  ids_in_order (this (snd (addObject env object s))) /\
  match fst (addObject env object s) with
  | inr id => id = _id (this s) + 1 /\ _id (this (snd (addObject env object s))) = id
  | inl _ => _id (this (snd (addObject env object s))) = _id (this s)
  end.
Proof.
  intros [Hrange Hkeys].
  destruct (fst (addObject env object s)) as [e | id] eqn:E.
  - apply addObject_throws in E. destruct E as [Hobj Hid].
    assert (_id (this (snd (addObject env object s))) = _id (this s)) as Hsame.
    { destruct Hid as [H | [H Hc]]; [exact H | ].
      rewrite H. apply Map_containsKey_true in Hc.
      rewrite Hkeys in Hc. apply in_ids in Hc.
      pose proof (incr_bounds (_id (this s))). lia. }
    split; [ | exact Hsame]. unfold ids_in_order. now rewrite Hobj, Hsame.
  - apply addObject_returns in E.
    destruct E as (l & o & ps & pcs & colors & cs & gl & vb & cb &
                   _ & _ & _ & _ & Hid & Hc & Hthis).
    rewrite Hthis. simpl.
    assert (id = _id (this s) + 1) as Hnext.
    { rewrite Hid. unfold incr. destruct (Z.ltb_spec (_id (this s)) (2 ^ 53)) as [ | Hge];
        [reflexivity | exfalso].
      assert (Map_containsKey (_objects (this s)) id = true) as Ht; [ | congruence].
      apply Map_containsKey_true. rewrite Hkeys. apply in_ids.
      rewrite Hid. unfold incr. destruct (Z.ltb_spec (_id (this s)) (2 ^ 53)); lia. }
    split; [ | auto]. split; simpl.
    + assert (_id (this s) < 2 ^ 53); [ | lia].
      destruct (Z.ltb_spec (_id (this s)) (2 ^ 53)) as [ | Hge]; [assumption | ].
      rewrite Hid in Hnext. unfold incr in Hnext.
      destruct (Z.ltb_spec (_id (this s)) (2 ^ 53)); lia.
    + rewrite Map_getKeys_set_absent by exact Hc. rewrite Hkeys.
      replace (Z.to_nat (id + 1)) with (S (Z.to_nat (_id (this s) + 1))) by lia.
      rewrite seq_S, map_app. simpl. do 3 f_equal. lia.
Qed.

(** The other calls leave the counter and the registry alone. *)
Lemma exec_keeps_registry c s :
  (forall object, c <> call_addObject object) ->
  _id (this (snd (exec env c s))) = _id (this s) /\
  _objects (this (snd (exec env c s))) = _objects (this s).
Proof.
  intros Hc.
  set (P := fun s' : State =>
    _id (this s') = _id (this s) /\ _objects (this s') = _objects (this s)).
  assert (ignores_log P) as Hlog by (intros ? ? H; exact H).
  assert (ignores_heap P) as Hheap by (intros ? ? H; exact H).
  assert (inv P (exec env c)) as Hinv.
  { destruct c; try (exfalso; eapply Hc; reflexivity); simpl; unfold returning;
      try (apply inv_bind; [ | intros ?; apply inv_ret ]);
      [ apply inv_setWidth | apply inv_setHeight | apply inv_setBackgroundColor
      | apply inv_getContainer | apply inv_setContainer | apply inv_setContainerById
      | apply inv_init | apply inv_addShaders | apply inv_render
      | apply inv_convertWorldToDisplayCoordinates | intros s' H; exact H ];
      first [ exact Hlog | exact Hheap
            | solve [intros ? ? ? H; exact H]
            | solve [intros ? ? H; exact H]
            | solve [intros ? H; exact H] ]. }
  apply Hinv. split; reflexivity.
Qed.

Lemma exec_returns_id c s id :
  fst (exec env c s) = inr (VId id) ->
  exists object, c = call_addObject object /\ fst (addObject env object s) = inr id.
Proof.
  destruct c; simpl; unfold returning, bind, ret;
    try match goal with
        | |- context [match ?m s with _ => _ end] =>
          destruct (m s) as [[? | ?] ?] eqn:E; simpl; try discriminate
        end; try discriminate.
  intros [= ->]. eexists. split; [reflexivity | ]. now rewrite E.
Qed.

Lemma exec_ids c s :
  ids_in_order (this s) ->
  ids_in_order (this (snd (exec env c s))) /\
  match fst (exec env c s) with
  | inr (VId id) => id = _id (this s) + 1 /\ _id (this (snd (exec env c s))) = id
  | _ => _id (this (snd (exec env c s))) = _id (this s)
  end.
Proof.
  intros Hs.
  assert ((exists object, c = call_addObject object) \/
          (forall object, c <> call_addObject object)) as [[object ->] | Hc]
    by (destruct c; first [left; eexists; reflexivity | right; discriminate]).
  - pose proof (addObject_ids object s Hs) as [H1 H2].
    simpl. unfold returning, bind, ret.
    destruct (addObject env object s) as [[e | id] s1]; simpl in *; auto.
  - pose proof (exec_keeps_registry c s Hc) as [Hid Hobj].
    split.
    + destruct Hs as [Hrange Hkeys]. unfold ids_in_order. now rewrite Hid, Hobj.
    + destruct (fst (exec env c s)) as [e | [ | elem | id | v]] eqn:E; auto.
      apply exec_returns_id in E. destruct E as (object & -> & _).
      exfalso. eapply Hc. reflexivity.
Qed.

Lemma run_ids cs s :
  ids_in_order (this s) ->
  added_ids (fst (run env cs s)) =
    List.map Z.of_nat
      (seq (Z.to_nat (_id (this s) + 1)) (length (added_ids (fst (run env cs s))))).
Proof.
  revert s. induction cs as [| c cs IH]; intros s Hs; [reflexivity | ].
  simpl.
  pose proof (exec_ids c s Hs) as [Hs1 Hr].
  destruct (exec env c s) as [r s1]. simpl in *.
  specialize (IH s1 Hs1).
  destruct (run env cs s1) as [rs s2]. simpl in *.
  destruct Hs as [Hrange _].
  destruct r as [e | [ | elem | id | v]]; simpl;
    try (rewrite <- Hr; exact IH).
  destruct Hr as [Hid Hid1]. rewrite Hid1 in IH.
  rewrite IH at 1. f_equal; [lia | ].
  replace (S (Z.to_nat (_id (this s) + 1))) with (Z.to_nat (id + 1)) by lia.
  reflexivity.
Qed.

(** C5: the counter of a new renderer is -1, and in every run of calls on a
    new renderer the identifiers that the calls of [addObject] returned are,
    in order, 0, 1, 2, ...: the n-th call that returns gives n - 1. *)
Theorem addObject_identifiers_consecutive width height h cs :
  _id (this (initial width height h)) = -1 /\
  added_ids (fst (run env cs (initial width height h))) =
    List.map Z.of_nat
      (seq 0 (length (added_ids (fst (run env cs (initial width height h)))))).
Proof.
  split; [reflexivity | ].
  apply (run_ids cs (initial width height h)).
  split; simpl; [lia | reflexivity].
Qed.

End Identifiers.

(** ** addObject: colors, counts and the caller's objects *)

Lemma color_policy_length oc ps pcs : length (color_policy oc ps pcs) = length ps.
Proof.
  unfold color_policy. destruct oc as [c | ].
  - apply length_replicate.
  - destruct (decide (length pcs = length ps)); [assumption | apply length_replicate].
Qed.

(** The three ways of the policy, one by one. *)
Lemma color_policy_cases oc ps pcs :
  match oc with
  | Some c => color_policy oc ps pcs = replicate (length ps) c
  | None =>
    (length pcs = length ps -> color_policy oc ps pcs = pcs) /\
    (length pcs <> length ps ->
     color_policy oc ps pcs = replicate (length ps) (new_X_color 1 1 1))
  end.
Proof.
  unfold color_policy. destruct oc; [reflexivity | ].
  destruct (decide (length pcs = length ps)); split; intros; congruence.
Qed.

Section AddObjectClaims.

Variable env : Env.

(** C1: when [addObject] returns, the data of its second upload, the one
    into the color buffer, are the flattened colors of the three-way policy:
    the object color once per point if the object has one, whatever its
    point colors; else its point colors as they are if they are as many as
    the points; else white once per point. *)
Theorem addObject_uploads_policy_colors object s id :
  fst (addObject env object s) = inr id ->
  exists l o ps pcs gl glVertexBuffer glColorBuffer,
    object = Some l /\
    heap s !! l = Some (CObject o) /\
    heap s !! object_points o = Some (CPoints ps) /\
    (object_color o = None -> heap s !! object_colors o = Some (CColors pcs)) /\
    log (snd (addObject env object s)) =
      log s ++
      [GL gl createBuffer;
       GL gl (bindBuffer ARRAY_BUFFER glVertexBuffer);
       GL gl (bufferData ARRAY_BUFFER (Float32Array (points_flatten ps)) STATIC_DRAW);
       GL gl createBuffer;
       GL gl (bindBuffer ARRAY_BUFFER glColorBuffer);
       GL gl (bufferData ARRAY_BUFFER
                (Float32Array (colors_flatten (color_policy (object_color o) ps pcs)))
                STATIC_DRAW)].
Proof.
  intros E. apply addObject_returns in E.
  destruct E as (l & o & ps & pcs & colors & cs & gl & vb & cb &
                 -> & _ & Hres & Hlog & _).
  destruct Hres as (Ho & Hp & Hpcs & _ & _ & -> & _).
  exists l, o, ps, pcs, gl, vb, cb. auto.
Qed.

(** C8: when [addObject] returns [id], the registry holds under [id] the
    object, a vertex buffer and a color buffer; both buffers count as many
    items as the object has points, of 3 components for the vertices and of
    4 for the colors. *)
Theorem addObject_entry_counts object s id :
  fst (addObject env object s) = inr id ->
  exists l o ps vertexBuffer colorBuffer,
    object = Some l /\
    heap (snd (addObject env object s)) !! l = Some (CObject o) /\
    heap (snd (addObject env object s)) !! object_points o = Some (CPoints ps) /\
    Map_get (_objects (this (snd (addObject env object s)))) id = Some l /\
    Map_get (_vertexBuffers (this (snd (addObject env object s)))) id =
      Some vertexBuffer /\
    Map_get (_colorBuffers (this (snd (addObject env object s)))) id =
      Some colorBuffer /\
    itemCount vertexBuffer = length ps /\
    itemCount colorBuffer = length ps /\
    itemSize vertexBuffer = 3%nat /\
    itemSize colorBuffer = 4%nat.
Proof.
  intros E. apply addObject_returns in E.
  destruct E as (l & o & ps & pcs & colors & cs & gl & vb & cb &
                 -> & _ & Hres & _ & _ & _ & Hthis).
  pose proof Hres as (Ho & Hp & _ & _ & _ & Hcs & _).
  exists l, o, ps, (new_X_buffer vb (length ps) 3), (new_X_buffer cb (length cs) 4).
  rewrite Hthis. simpl. rewrite !Map_get_set.
  split; [reflexivity | ].
  split; [exact (colors_resolved_frame _ _ _ _ _ _ _ _ _ _ Hres Ho) | ].
  split; [exact (colors_resolved_frame _ _ _ _ _ _ _ _ _ _ Hres Hp) | ].
  repeat (split; [reflexivity | ]).
  split; [ | auto]. rewrite Hcs. apply color_policy_length.
Qed.

(** The heap that [addObject] found is part of the heap it leaves. *)
Lemma addObject_frame object s : heap s ⊆ heap (snd (addObject env object s)).
Proof.
  apply (inv_addObject env (fun s' => heap s ⊆ heap s')).
  - intros ? ? H; exact H.
  - intros o. apply addObject_colors_frame.
  - intros ? H; exact H.
  - intros ? ? ? H; exact H.
  - intros ? ? ? H; exact H.
  - intros ? ? ? H; exact H.
  - reflexivity.
Qed.

(** C6: whatever its outcome, [addObject] leaves every object of the heap
    as it found it: the scene object with its color, the container of its
    points, the container of its point colors.  When it returns, the colors
    it uploaded are in a container that is either the object's own, read and
    not written, when the point colors are valid, or else a container at a
    location that the heap did not use before the call, and that container
    is all that the heap has gained. *)
Theorem addObject_leaves_caller_objects object s :
  (forall k c, heap s !! k = Some c ->
               heap (snd (addObject env object s)) !! k = Some c) /\
  (forall id, fst (addObject env object s) = inr id ->
     exists l o ps pcs colors,
       object = Some l /\
       heap s !! l = Some (CObject o) /\
       heap s !! object_points o = Some (CPoints ps) /\
       (object_color o = None -> heap s !! object_colors o = Some (CColors pcs)) /\
       heap (snd (addObject env object s)) !! colors =
         Some (CColors (color_policy (object_color o) ps pcs)) /\
       ((colorsValid o ps pcs /\ colors = object_colors o /\
         heap (snd (addObject env object s)) = heap s) \/
        (~ colorsValid o ps pcs /\ heap s !! colors = None /\
         heap (snd (addObject env object s)) =
           <[colors := CColors (color_policy (object_color o) ps pcs)]> (heap s)))).
Proof.
  split.
  - intros k c Hk. eapply lookup_weaken; [exact Hk | apply addObject_frame].
  - intros id E. apply addObject_returns in E.
    destruct E as (l & o & ps & pcs & colors & cs & gl & vb & cb &
                   -> & _ & Hres & _).
    destruct Hres as (Ho & Hp & Hpcs & _ & _ & -> & Hc & Hcases).
    simpl in *. exists l, o, ps, pcs, colors. auto 10.
Qed.

End AddObjectClaims.

Lemma addObject_uploads_policy_colors_witness :
  exists l o ps pcs gl glVertexBuffer glColorBuffer,
    Some 10%nat = Some l /\
    heap literal_state !! l = Some (CObject o) /\
    heap literal_state !! object_points o = Some (CPoints ps) /\
    (object_color o = None ->
     heap literal_state !! object_colors o = Some (CColors pcs)) /\
    log (snd (addObject demo_env (Some 10%nat) literal_state)) =
      log literal_state ++
      [GL gl createBuffer;
       GL gl (bindBuffer ARRAY_BUFFER glVertexBuffer);
       GL gl (bufferData ARRAY_BUFFER (Float32Array (points_flatten ps)) STATIC_DRAW);
       GL gl createBuffer;
       GL gl (bindBuffer ARRAY_BUFFER glColorBuffer);
       GL gl (bufferData ARRAY_BUFFER
                (Float32Array (colors_flatten (color_policy (object_color o) ps pcs)))
                STATIC_DRAW)].
Proof.
  apply (addObject_uploads_policy_colors demo_env (Some 10%nat) literal_state 0).
  vm_compute. reflexivity.
Defined.

Lemma addObject_entry_counts_witness :
  exists l o ps vertexBuffer colorBuffer,
    Some 12%nat = Some l /\
    heap (snd (addObject demo_env (Some 12%nat) literal_state)) !! l =
      Some (CObject o) /\
    heap (snd (addObject demo_env (Some 12%nat) literal_state)) !! object_points o =
      Some (CPoints ps) /\
    Map_get (_objects (this (snd (addObject demo_env (Some 12%nat) literal_state)))) 0 =
      Some l /\
    Map_get (_vertexBuffers (this (snd (addObject demo_env (Some 12%nat) literal_state)))) 0 =
      Some vertexBuffer /\
    Map_get (_colorBuffers (this (snd (addObject demo_env (Some 12%nat) literal_state)))) 0 =
      Some colorBuffer /\
    itemCount vertexBuffer = length ps /\
    itemCount colorBuffer = length ps /\
    itemSize vertexBuffer = 3%nat /\
    itemSize colorBuffer = 4%nat.
Proof.
  apply (addObject_entry_counts demo_env (Some 12%nat) literal_state 0).
  vm_compute. reflexivity.
Defined.

Lemma addObject_leaves_caller_objects_witness :
  heap (snd (addObject demo_env (Some 10%nat) literal_state)) !! 3%nat =
    Some (CColors three_colors) /\
  heap (snd (addObject demo_env (Some 10%nat) literal_state)) !! 10%nat =
    Some (CObject (mk_object (Some demo_red) 1%nat 3%nat)).
Proof.
  destruct (addObject_leaves_caller_objects demo_env (Some 10%nat) literal_state)
    as [H _].
  split; apply H; reflexivity.
Defined.

(** The literal cases of the policy, run: five points and an explicit color;
    five points and five point colors; five points and three point colors. *)
Example addObject_explicit_color :
  last_upload (log (snd (addObject demo_env (Some 10%nat) literal_state))) =
    Some (colors_flatten (replicate 5 demo_red)).
Proof. vm_compute. reflexivity. Qed.

Example addObject_matching_point_colors :
  last_upload (log (snd (addObject demo_env (Some 11%nat) literal_state))) =
    Some (colors_flatten five_colors).
Proof. vm_compute. reflexivity. Qed.

Example addObject_mismatched_point_colors :
  last_upload (log (snd (addObject demo_env (Some 12%nat) literal_state))) =
    Some (colors_flatten (replicate 5 (new_X_color 1 1 1))).
Proof. vm_compute. reflexivity. Qed.

Lemma addObject_identifiers_consecutive_witness :
  added_ids (fst (run demo_env
     [call_init; call_addObject (Some 10%nat); call_render; call_addObject None;
      call_addObject (Some 11%nat); call_addObject (Some 12%nat)]
     (initial 640 480 literal_heap))) = [0; 1; 2].
Proof.
  destruct (addObject_identifiers_consecutive demo_env 640 480 literal_heap
     [call_init; call_addObject (Some 10%nat); call_render; call_addObject None;
      call_addObject (Some 11%nat); call_addObject (Some 12%nat)]) as [_ H].
  rewrite H. vm_compute. reflexivity.
Defined.

(** ** convertWorldToDisplayCoordinates *)

(** The two products are computed and dropped: [multiply] returns the
    product and leaves [viewPerspective] the identity, so once the camera has
    answered with matrices of four rows the pixel is that of the vector
    transformed by the identity, whatever the view and the projection. *)
Lemma convertWorldToDisplayCoordinates_uses_identity env s cam view perspective v :
  _camera (this s) = Some cam ->
  camera_getView env (log s) cam = Returns view ->
  camera_getPerspective env (log s ++ [CameraGetView cam]) cam = Returns perspective ->
  Matrix_height view = 4%nat ->
  Matrix_height perspective = 4%nat ->
  fst (convertWorldToDisplayCoordinates env v s) =
    inr (to_pixels (matrix_multiplyByVector env (createIdentityMatrix 4) v)
           (_width (this s)) (_height (this s))).
Proof.
  intros Hcam Hview Hpersp Hv Hp.
  unfold convertWorldToDisplayCoordinates, Matrix_multiply. unfold_monad.
  rewrite Hcam. simpl. rewrite Hview. simpl. rewrite Hcam. simpl.
  rewrite Hpersp. simpl.
  change (Matrix_width (createIdentityMatrix 4)) with 4%nat.
  rewrite Hv, Hp. reflexivity.
Qed.

(** C2, at a camera whose view halves every coordinate, for the vector
    (1, 1, 0) on a canvas of 100 by 100: the renderer answers the pixel
    (100, 0), that of the vector itself, where the composition of the
    identity with the view and the projection gives (75, 25). *)
Theorem convertWorldToDisplayCoordinates_drops_view :
  fst (convertWorldToDisplayCoordinates demo_env (goog_math_Vec3 1 1 0) demo_state) =
    inr (goog_math_Vec2 100 0) /\
  convertWorldToDisplayCoordinates_spec demo_env half_view (createIdentityMatrix 4)
    100 100 (goog_math_Vec3 1 1 0) = inr (goog_math_Vec2 75 25).
Proof. split; vm_compute; reflexivity. Qed.

(** * Further properties of the methods *)

(** ** The accessors *)

Section Accessors.

Variable env : Env.

(** The events of a setter: one restyling of the canvas if there is one. *)
Lemma setWidth_run s width :
  setWidth width s =
    (inr tt, mk_state (set_width width (this s)) (heap s)
               (log s ++ match _canvas (this s) with
                         | Some canvas =>
                           [DomSetProperty canvas "width" (CssNumber width)]
                         | None => []
                         end)).
Proof.
  unfold setWidth. unfold_monad. destruct s as [r h l]. simpl.
  destruct (_canvas r); simpl; rewrite ?app_nil_r; reflexivity.
Qed.

Lemma setHeight_run s height :
  setHeight height s =
    (inr tt, mk_state (set_height height (this s)) (heap s)
               (log s ++ match _canvas (this s) with
                         | Some canvas =>
                           [DomSetProperty canvas "height" (CssNumber height)]
                         | None => []
                         end)).
Proof.
  unfold setHeight. unfold_monad. destruct s as [r h l]. simpl.
  destruct (_canvas r); simpl; rewrite ?app_nil_r; reflexivity.
Qed.

Lemma setBackgroundColor_run s backgroundColor :
  setBackgroundColor backgroundColor s =
    (inr tt, mk_state (set_backgroundColor backgroundColor (this s)) (heap s)
               (log s ++ match _canvas (this s) with
                         | Some canvas =>
                           [DomSetProperty canvas "background-color"
                              (CssString backgroundColor)]
                         | None => []
                         end)).
Proof.
  unfold setBackgroundColor. unfold_monad. destruct s as [r h l]. simpl.
  destruct (_canvas r); simpl; rewrite ?app_nil_r; reflexivity.
Qed.

(** X1: the three setters always return and store the value; when the canvas
    exists they issue one call, [style.setProperty] on that canvas with the
    property's name and the value, and none otherwise.  They touch neither
    the [width] and [height] attributes of the canvas nor the viewport. *)
Theorem setters_store_and_restyle s width height backgroundColor :
  let restyle prop v :=
    match _canvas (this s) with
    | Some canvas => [DomSetProperty canvas prop v]
    | None => []
    end in
  setWidth width s =
    (inr tt, mk_state (set_width width (this s)) (heap s)
               (log s ++ restyle "width" (CssNumber width))) /\
  setHeight height s =
    (inr tt, mk_state (set_height height (this s)) (heap s)
               (log s ++ restyle "height" (CssNumber height))) /\
  setBackgroundColor backgroundColor s =
    (inr tt, mk_state (set_backgroundColor backgroundColor (this s)) (heap s)
               (log s ++ restyle "background-color" (CssString backgroundColor))).
Proof.
  simpl. rewrite setWidth_run, setHeight_run, setBackgroundColor_run.
  destruct (_canvas (this s)); auto.
Qed.

(** X2: what is set before [init] shows when [init] runs: on a renderer
    without canvas, after the three setters a call of [init] that returns has
    created the canvas with that background color, width and height, and has
    set the viewport to that width and height. *)
Theorem init_uses_current_settings s width height backgroundColor :
  _canvas (this s) = None ->
  let s1 := snd (setBackgroundColor backgroundColor
                   (snd (setHeight height (snd (setWidth width s))))) in
  fst (init env s1) = inr tt ->
  exists canvas container gl,
    log (snd (init env s1)) =
      log s ++
      [DomCreate "canvas" canvas;
       DomSetProperty canvas "background-color" (CssString backgroundColor);
       DomSetWidth canvas width;
       DomSetHeight canvas height;
       DomAppendChild container canvas;
       DomGetContext canvas "experimental-webgl";
       GL gl (viewport 0 0 width height);
       GL gl (clearColor 0 0 0 0);
       GL gl (enable DEPTH_TEST);
       GL gl (depthFunc LEQUAL);
       GL gl (clear (Z.lor COLOR_BUFFER_BIT DEPTH_BUFFER_BIT));
       CameraNew].
Proof.
  intros Hc s1.
  assert (s1 = mk_state
                 (set_backgroundColor backgroundColor
                    (set_height height (set_width width (this s))))
                 (heap s) (log s)) as ->.
  { subst s1. rewrite setWidth_run. simpl. rewrite setHeight_run. simpl.
    rewrite setBackgroundColor_run. simpl. rewrite Hc. simpl.
    now rewrite !app_nil_r. }
  intros E.
  match type of E with fst (init env ?s1) = _ =>
    pose proof (init_outcome env s1) as H
  end.
  rewrite E in H.
  destruct H as [[[c H] _] | [_ (canvas & container & gl & camera & _ & Hlog)]].
  - simpl in H. congruence.
  - exists canvas, container, gl. rewrite Hlog. reflexivity.
Qed.

End Accessors.

Lemma init_uses_current_settings_witness :
  exists canvas container gl,
    log (snd (init demo_env
                (snd (setBackgroundColor "#336699"
                   (snd (setHeight 240 (snd (setWidth 320 (initial 100 100 demo_heap))))))))) =
      log (initial 100 100 demo_heap) ++
      [DomCreate "canvas" canvas;
       DomSetProperty canvas "background-color" (CssString "#336699");
       DomSetWidth canvas 320;
       DomSetHeight canvas 240;
       DomAppendChild container canvas;
       DomGetContext canvas "experimental-webgl";
       GL gl (viewport 0 0 320 240);
       GL gl (clearColor 0 0 0 0);
       GL gl (enable DEPTH_TEST);
       GL gl (depthFunc LEQUAL);
       GL gl (clear (Z.lor COLOR_BUFFER_BIT DEPTH_BUFFER_BIT));
       CameraNew].
Proof.
  apply (init_uses_current_settings demo_env (initial 100 100 demo_heap) 320 240 "#336699");
    reflexivity.
Defined.

(** ** The container *)

(** What [getContainer] does, case by case. *)
Lemma getContainer_run env s :
  getContainer env s =
    match _container (this s) with
    | Some container => (inr container, s)
    | None =>
      match document_body env (log s) with
      | Some body =>
        (inr body, mk_state (set_container (Some body) (this s)) (heap s) (log s))
      | None => (inl (X_exception "Fatal: Could not find <body></body>!"), s)
      end
    end.
Proof.
  unfold getContainer. unfold_monad. destruct s as [r h l]. simpl.
  destruct (_container r); simpl; [reflexivity | ].
  destruct (document_body env l); reflexivity.
Qed.

Section Container.

Variable env : Env.

(** X3: [getContainer] resolves the container once.  With no container set
    and no body in the document it throws and changes nothing; when it
    returns, the container it returned is stored, and every later call
    returns the same element and changes nothing, whatever the document has
    become in the meantime. *)
Theorem getContainer_resolves_once s :
  (_container (this s) = None -> document_body env (log s) = None ->
   getContainer env s =
     (inl (X_exception "Fatal: Could not find <body></body>!"), s)) /\
  (forall container, fst (getContainer env s) = inr container ->
     _container (this (snd (getContainer env s))) = Some container /\
     forall env', getContainer env' (snd (getContainer env s)) =
                    (inr container, snd (getContainer env s))).
Proof.
  split.
  - intros Hc Hb. rewrite getContainer_run, Hc, Hb. reflexivity.
  - intros container. rewrite getContainer_run.
    destruct (_container (this s)) as [c | ] eqn:Hc; simpl.
    + intros [= ->]. split; [exact Hc | ].
      intros env'. rewrite getContainer_run, Hc. reflexivity.
    + destruct (document_body env (log s)) as [body | ]; simpl; [ | discriminate].
      intros [= ->]. split; [reflexivity | ].
      intros env'. rewrite getContainer_run. reflexivity.
Qed.

(** X4: [setContainer] of an element stores it, and [getContainer] then
    returns it without asking the document.  [setContainer] of [null] throws
    and changes nothing, and so does [setContainerById] when the document
    has no element of that id, so that a container set before stays; with
    an element of that id, [setContainerById] is [setContainer] of it. *)
Theorem setContainer_then_getContainer s container containerId :
  (forall env', bind (setContainer (Some container)) (fun _ => getContainer env') s =
     (inr container,
      mk_state (set_container (Some container) (this s)) (heap s) (log s))) /\
  setContainer None s = (inl (X_exception "Fatal: Could not find container!"), s) /\
  (dom_getElement env (log s) containerId = None ->
   setContainerById env containerId s =
     (inl (X_exception "Fatal: Could not find container!"), s)) /\
  (forall element, dom_getElement env (log s) containerId = Some element ->
   setContainerById env containerId s = setContainer (Some element) s).
Proof.
  split; [intros env'; reflexivity | ].
  split; [reflexivity | ].
  unfold setContainerById. unfold_monad. split.
  - intros H. simpl. rewrite H. reflexivity.
  - intros element H. simpl. rewrite H. reflexivity.
Qed.

End Container.

Lemma setContainer_then_getContainer_witness :
  setContainerById no_webgl_env "viewer" (initial 100 100 demo_heap) =
    setContainer (Some 9%nat) (initial 100 100 demo_heap) /\
  setContainerById no_webgl_env "nowhere" (initial 100 100 demo_heap) =
    (inl (X_exception "Fatal: Could not find container!"), initial 100 100 demo_heap).
Proof.
  destruct (setContainer_then_getContainer no_webgl_env (initial 100 100 demo_heap)
              0%nat "viewer") as (_ & _ & _ & H).
  destruct (setContainer_then_getContainer no_webgl_env (initial 100 100 demo_heap)
              0%nat "nowhere") as (_ & _ & H' & _).
  split; [apply H | apply H']; reflexivity.
Defined.

Lemma getContainer_resolves_once_witness :
  getContainer no_webgl_env (snd (getContainer demo_env (initial 100 100 demo_heap))) =
    (inr 0%nat, snd (getContainer demo_env (initial 100 100 demo_heap))).
Proof.
  destruct (getContainer_resolves_once demo_env (initial 100 100 demo_heap)) as [_ H].
  apply (H 0%nat). reflexivity.
Defined.

(** ** init: the container and the failures *)

Section InitFailures.

Variable env : Env.



(** X6: where the canvas gives no WebGL context, [init] is not repeatable
    for free.  On a renderer without canvas, when the container is the one
    that was set or, none being set, the body the document has once the
    canvas is created and styled, and the request for the context
    [experimental-webgl] of the new canvas returns [null], [init] throws the
    no-WebGL exception after having appended the canvas to the container; the
    canvas field stays [null], so that the same holds again of a further
    call, which appends one more canvas.  Nothing is assumed of what the
    canvas offers under another name, or at another time. *)
Theorem init_without_webgl_appends_canvas s canvas container :
  _canvas (this s) = None ->
  canvas = dom_createDom env (log s) "canvas" ->
  match _container (this s) with
  | Some c => container = c
  | None =>
    document_body env
      (log s ++
       [DomCreate "canvas" canvas;
        DomSetProperty canvas "background-color"
          (CssString (_backgroundColor (this s)));
        DomSetWidth canvas (_width (this s));
        DomSetHeight canvas (_height (this s))]) = Some container
  end ->
  canvas_getContext env
    (log s ++
     [DomCreate "canvas" canvas;
      DomSetProperty canvas "background-color"
        (CssString (_backgroundColor (this s)));
      DomSetWidth canvas (_width (this s));
      DomSetHeight canvas (_height (this s));
      DomAppendChild container canvas]) canvas "experimental-webgl" =
    Returns None ->
  init env s =
    (inl (X_exception "Fatal: WebGL not supported!"),
     mk_state (set_container (Some container) (this s)) (heap s)
       (log s ++ init_dom_steps (this s) canvas container)) /\
  _canvas (set_container (Some container) (this s)) = None.
Proof.
  destruct s as [[cn dm w ht bg ct cv g cm objs vbs cbs i vpa vca sp] h l].
  simpl. intros -> -> Hcontainer Hctx.
  unfold init, getContainer, init_dom_steps. unfold_monad. simpl.
  destruct ct as [c | ]; simpl.
  - subst container. rewrite <- ?app_assoc. simpl in *.
    rewrite Hctx. simpl. rewrite <- ?app_assoc. simpl. split; reflexivity.
  - rewrite <- ?app_assoc. simpl in *. rewrite Hcontainer. simpl.
    rewrite <- ?app_assoc. simpl. rewrite Hctx. simpl.
    rewrite <- ?app_assoc. simpl. split; reflexivity.
Qed.

(** X7: the container of [init].  On a renderer without canvas a call of
    [init] that returns has appended the canvas to the container that was
    set, or, when none was set, to the body the document had once the canvas
    was created and styled; that container is stored. *)
Theorem init_appends_to_container s :
  _canvas (this s) = None ->
  fst (init env s) = inr tt ->
  exists canvas container gl,
    log (snd (init env s)) = log s ++ init_steps (this s) canvas container gl /\
    _container (this (snd (init env s))) = Some container /\
    match _container (this s) with
    | Some c => container = c
    | None =>
      document_body env
        (log s ++
         [DomCreate "canvas" canvas;
          DomSetProperty canvas "background-color"
            (CssString (_backgroundColor (this s)));
          DomSetWidth canvas (_width (this s));
          DomSetHeight canvas (_height (this s))]) = Some container
    end.
Proof.
  destruct s as [[cn dm w ht bg ct cv g cm objs vbs cbs i vpa vca sp] h l].
  simpl. intros ->.
  unfold init, getContainer, init_steps. unfold_monad. simpl.
  sym_exec; intros [= ]; rewrite <- ?app_assoc in *; simpl in *;
    do 3 eexists; (split; [reflexivity | split; [reflexivity | ]]);
    first [reflexivity | eassumption].
Qed.

End InitFailures.


Lemma init_without_webgl_appends_canvas_witness :
  init canvas2d_env (initial 100 100 demo_heap) =
    (inl (X_exception "Fatal: WebGL not supported!"),
     mk_state (set_container (Some 0%nat) (this (initial 100 100 demo_heap)))
       (heap (initial 100 100 demo_heap))
       (log (initial 100 100 demo_heap) ++
        init_dom_steps (this (initial 100 100 demo_heap)) 1%nat 0%nat)) /\
  _canvas (set_container (Some 0%nat) (this (initial 100 100 demo_heap))) = None.
Proof.
  apply (init_without_webgl_appends_canvas canvas2d_env (initial 100 100 demo_heap)
           1%nat 0%nat); reflexivity.
Defined.

Lemma init_appends_to_container_witness :
  exists canvas container gl,
    log (snd (init demo_env (snd (setContainer (Some 5%nat) (initial 100 100 demo_heap))))) =
      [] ++ init_steps (new_X_renderer 100 100) canvas container gl /\
    _container (this (snd (init demo_env
                             (snd (setContainer (Some 5%nat) (initial 100 100 demo_heap)))))) =
      Some container /\
    container = 5%nat.
Proof.
  apply (init_appends_to_container demo_env
           (snd (setContainer (Some 5%nat) (initial 100 100 demo_heap))));
    reflexivity.
Defined.

(** ** addShaders *)

Section AddShaders.

Variable env : Env.

Lemma addShaders_returns fragmentShader vertexShader s :
  fst (addShaders env fragmentShader vertexShader s) = inr tt ->
  exists gl fragmentSource vertexSource glFragmentShader glVertexShader
         shaderProgram position color,
    fragmentShader = Some fragmentSource /\
    vertexShader = Some vertexSource /\
    _gl (this s) = Some gl /\
    snd (addShaders env fragmentShader vertexShader s) =
      mk_state
        (set_shaderProgram shaderProgram
           (set_vertexColorAttribute color
              (set_vertexPositionAttribute position (this s))))
        (heap s)
        (log s ++
         addShaders_steps gl fragmentSource vertexSource glFragmentShader
           glVertexShader shaderProgram position color).
Proof.
  destruct s as [[cn dm w ht bg ct cv g cm objs vbs cbs i vpa vca sp] h l].
  unfold addShaders, addShaders_steps. unfold_monad. simpl.
  destruct cv, g as [gl | ]; simpl; try discriminate.
  destruct fragmentShader as [fragmentSource | ], vertexShader as [vertexSource | ];
    simpl; try discriminate.
  sym_exec; try discriminate.
  intros _. rewrite <- !app_assoc. simpl.
  do 8 eexists. repeat (split; [reflexivity | ]). reflexivity.
Qed.


(** X8: when [addShaders] returns, both shaders were given, the calls it
    issued are the eighteen of [addShaders_steps] in order (the program is
    the answer of [createProgram], the vertex shader is attached before the
    fragment shader), the heap is untouched, and the only fields it has set
    are the two attribute locations and the program. *)
Theorem addShaders_links_and_stores fragmentShader vertexShader s :
  fst (addShaders env fragmentShader vertexShader s) = inr tt ->
  exists gl fragmentSource vertexSource glFragmentShader glVertexShader
         shaderProgram position color,
    fragmentShader = Some fragmentSource /\
    vertexShader = Some vertexSource /\
    _gl (this s) = Some gl /\
    snd (addShaders env fragmentShader vertexShader s) =
      mk_state
        (set_shaderProgram shaderProgram
           (set_vertexColorAttribute color
              (set_vertexPositionAttribute position (this s))))
        (heap s)
        (log s ++
         addShaders_steps gl fragmentSource vertexSource glFragmentShader
           glVertexShader shaderProgram position color).
Proof. apply addShaders_returns. Qed.


End AddShaders.

Lemma addShaders_links_and_stores_witness :
  exists gl fragmentSource vertexSource glFragmentShader glVertexShader
         shaderProgram position color,
    Some "void main() {}" = Some fragmentSource /\
    Some "attribute vec3 vertexPosition;" = Some vertexSource /\
    _gl (this demo_state) = Some gl /\
    snd (addShaders demo_env (Some "void main() {}")
           (Some "attribute vec3 vertexPosition;") demo_state) =
      mk_state
        (set_shaderProgram shaderProgram
           (set_vertexColorAttribute color
              (set_vertexPositionAttribute position (this demo_state))))
        (heap demo_state)
        (log demo_state ++
         addShaders_steps gl fragmentSource vertexSource glFragmentShader
           glVertexShader shaderProgram position color).
Proof.
  apply (addShaders_links_and_stores demo_env). vm_compute. reflexivity.
Defined.


(** ** The registry *)

Lemma Map_containsKey_false {V} (m : Map V) k :
  Map_containsKey m k = false <-> ~ In k (Map_getKeys m).
Proof.
  rewrite <- Map_containsKey_true. destruct (Map_containsKey m k).
  - split; [discriminate | intros H; exfalso; now apply H].
  - split; [intros _ [=] | reflexivity].
Qed.

Lemma Map_containsKey_keys {V W} (m : Map V) (m' : Map W) k :
  Map_getKeys m' = Map_getKeys m -> Map_containsKey m' k = Map_containsKey m k.
Proof.
  intros H. destruct (Map_containsKey m k) eqn:E.
  - apply Map_containsKey_true. rewrite H. now apply Map_containsKey_true.
  - apply Map_containsKey_false. rewrite H. now apply Map_containsKey_false.
Qed.

Lemma Map_get_set_other {V} (m : Map V) k k' v :
  k' <> k -> Map_get (Map_set m k v) k' = Map_get m k'.
Proof.
  intros Hne. induction m as [| [k0 v0] m IH]; simpl.
  - destruct (Z.eqb_spec k' k); [contradiction | reflexivity].
  - destruct (Z.eqb_spec k k0) as [-> | Hk]; simpl.
    + destruct (Z.eqb_spec k' k0); [contradiction | reflexivity].
    + destruct (Z.eqb_spec k' k0); [reflexivity | exact IH].
Qed.

Lemma Map_get_is_Some {V} (m : Map V) k :
  In k (Map_getKeys m) -> is_Some (Map_get m k).
Proof.
  intros H. apply Map_containsKey_true in H. unfold Map_containsKey in H.
  now apply bool_decide_eq_true in H.
Qed.

Lemma set_id_same r : set_id (_id r) r = r.
Proof. destruct r; reflexivity. Qed.

Section Registry.

Variable env : Env.

(** A call of [addObject] that throws leaves the fields as they were, but
    for the counter when the incremented counter is a key already. *)
Lemma addObject_throws_this object s e :
  fst (addObject env object s) = inl e ->
  this (snd (addObject env object s)) = this s \/
  (this (snd (addObject env object s)) = set_id (incr (_id (this s))) (this s) /\
   Map_containsKey (_objects (this s)) (incr (_id (this s))) = true /\
   e = X_exception "Fatal: Could not get unique id.").
Proof.
  destruct s as [[cn dm w ht bg ct cv g cm objs vbs cbs i vpa vca sp] h lg].
  unfold addObject. unfold_monad. unfold TypeError. simpl.
  repeat first
    [ match goal with
      | |- context [addObject_colors ?l ?s0] =>
        let H := fresh "H" in
        assert (this (snd (addObject_colors l s0)) = this s0) as H
          by (apply (inv_addObject_colors (fun s' => this s' = this s0));
              first [ reflexivity | intros ? ? H'; exact H' ]);
        destruct (addObject_colors l s0) as [[? | ?] [? ? ?]]; simpl in H; subst
      end
    | sym_step ];
    simpl; intros [= <-]; auto.
Qed.

Lemma addObject_throws_keeps_fields object s e :
  ids_in_order (this s) ->
  fst (addObject env object s) = inl e ->
  this (snd (addObject env object s)) = this s.
Proof.
  intros [Hrange Hkeys] E.
  destruct (addObject_throws_this object s e E) as [H | (H & Hc & _)]; [exact H | ].
  rewrite H. apply Map_containsKey_true in Hc. rewrite Hkeys in Hc.
  apply in_ids in Hc. pose proof (incr_bounds (_id (this s))).
  replace (incr (_id (this s))) with (_id (this s)) by lia.
  apply set_id_same.
Qed.

Lemma exec_keeps_buffers c s :
  (forall object, c <> call_addObject object) ->
  registry (this (snd (exec env c s))) = registry (this s).
Proof.
  intros Hc.
  set (P := fun s' : State => registry (this s') = registry (this s)).
  assert (ignores_log P) as Hlog by (intros ? ? H; exact H).
  assert (ignores_heap P) as Hheap by (intros ? ? H; exact H).
  assert (inv P (exec env c)) as Hinv.
  { destruct c; try (exfalso; eapply Hc; reflexivity); simpl; unfold returning;
      try (apply inv_bind; [ | intros ?; apply inv_ret ]);
      [ apply inv_setWidth | apply inv_setHeight | apply inv_setBackgroundColor
      | apply inv_getContainer | apply inv_setContainer | apply inv_setContainerById
      | apply inv_init | apply inv_addShaders | apply inv_render
      | apply inv_convertWorldToDisplayCoordinates | intros s' H; exact H ];
      first [ exact Hlog | exact Hheap
            | solve [intros ? ? ? H; exact H]
            | solve [intros ? ? H; exact H]
            | solve [intros ? H; exact H] ]. }
  apply Hinv. reflexivity.
Qed.

Lemma addObject_aligned object s :
  ids_in_order (this s) -> registry_aligned (this s) ->
  registry_aligned (this (snd (addObject env object s))).
Proof.
  intros Hids [Hv Hc].
  destruct (fst (addObject env object s)) as [e | id] eqn:E.
  - rewrite (addObject_throws_keeps_fields object s e Hids E). split; assumption.
  - apply addObject_returns in E.
    destruct E as (l & o & ps & pcs & colors & cs & gl & vb & cb &
                   _ & _ & _ & _ & _ & Habs & ->).
    unfold registry_aligned. simpl.
    rewrite !Map_getKeys_set_absent
      by first [ exact Habs
               | rewrite (Map_containsKey_keys _ _ _ Hv); exact Habs
               | rewrite (Map_containsKey_keys _ _ _ Hc); exact Habs ].
    split; congruence.
Qed.

Lemma exec_registry c s :
  ids_in_order (this s) /\ registry_aligned (this s) ->
  ids_in_order (this (snd (exec env c s))) /\
  registry_aligned (this (snd (exec env c s))).
Proof.
  intros [Hids Hal]. split; [apply exec_ids; exact Hids | ].
  assert ((exists object, c = call_addObject object) \/
          (forall object, c <> call_addObject object)) as [[object ->] | Hc]
    by (destruct c; first [left; eexists; reflexivity | right; discriminate]).
  - pose proof (addObject_aligned object s Hids Hal) as H.
    simpl. unfold returning, bind, ret.
    destruct (addObject env object s) as [[e | id] s1]; exact H.
  - pose proof (exec_keeps_buffers c s Hc) as H. unfold registry in H.
    injection H as H1 H2 H3 H4. destruct Hal as [Hv Hcb].
    unfold registry_aligned. rewrite H2, H3, H4. split; assumption.
Qed.

Lemma reachable_registry s :
  reachable env s -> ids_in_order (this s) /\ registry_aligned (this s).
Proof.
  induction 1 as [width height h | c s Hs IH].
  - repeat split; simpl; try reflexivity; lia.
  - apply exec_registry. exact IH.
Qed.

(** X10: the registry of a renderer, in every state it can reach: the maps
    of the objects, of the vertex buffers and of the color buffers have the
    same keys in the same order, these keys are 0, 1, ..., [_id] without gap
    or repetition, and each of them has an entry in each map. *)
Theorem registry_keys_invariant s :
  reachable env s ->
  Map_getKeys (_objects (this s)) =
    List.map Z.of_nat (seq 0 (Z.to_nat (_id (this s) + 1))) /\
  Map_getKeys (_vertexBuffers (this s)) = Map_getKeys (_objects (this s)) /\
  Map_getKeys (_colorBuffers (this s)) = Map_getKeys (_objects (this s)) /\
  NoDup (Map_getKeys (_objects (this s))) /\
  forall key, 0 <= key <= _id (this s) ->
    is_Some (Map_get (_objects (this s)) key) /\
    is_Some (Map_get (_vertexBuffers (this s)) key) /\
    is_Some (Map_get (_colorBuffers (this s)) key).
Proof.
  intros Hs. destruct (reachable_registry s Hs) as [[Hrange Hkeys] [Hv Hc]].
  split; [exact Hkeys | ]. split; [exact Hv | ]. split; [exact Hc | ].
  split.
  - rewrite Hkeys.
    change (NoDup (Z.of_nat <$> seq 0 (Z.to_nat (_id (this s) + 1)))).
    apply NoDup_fmap_2; [intros a b; lia | apply NoDup_seq].
  - intros key Hkey.
    assert (In key (Map_getKeys (_objects (this s)))) as Hin
      by (rewrite Hkeys; apply in_ids; lia).
    repeat split; apply Map_get_is_Some; congruence.
Qed.

(** X11: a call of [addObject] that throws leaves no trace in the renderer:
    in every state a renderer can reach, the fields after it are the fields
    before it, the counter and the three maps of the registry included, so
    that no identifier is used up and no entry is left half made. *)
Theorem addObject_failure_keeps_fields object s e :
  reachable env s ->
  fst (addObject env object s) = inl e ->
  this (snd (addObject env object s)) = this s.
Proof.
  intros Hs. apply addObject_throws_keeps_fields.
  apply reachable_registry. exact Hs.
Qed.

(** X12: a call of [addObject] that returns appends: in every state a
    renderer can reach, the keys of each of the three maps afterwards are the
    keys before followed by the new identifier, and what the maps hold under
    the other keys is what they held. *)
Theorem addObject_appends_entry object s id :
  reachable env s ->
  fst (addObject env object s) = inr id ->
  let r := this s in
  let r' := this (snd (addObject env object s)) in
  Map_getKeys (_objects r') = Map_getKeys (_objects r) ++ [id] /\
  Map_getKeys (_vertexBuffers r') = Map_getKeys (_vertexBuffers r) ++ [id] /\
  Map_getKeys (_colorBuffers r') = Map_getKeys (_colorBuffers r) ++ [id] /\
  forall key, key <> id ->
    Map_get (_objects r') key = Map_get (_objects r) key /\
    Map_get (_vertexBuffers r') key = Map_get (_vertexBuffers r) key /\
    Map_get (_colorBuffers r') key = Map_get (_colorBuffers r) key.
Proof.
  intros Hs E. destruct (reachable_registry s Hs) as [_ [Hv Hc]].
  apply addObject_returns in E.
  destruct E as (l & o & ps & pcs & colors & cs & gl & vb & cb &
                 _ & _ & _ & _ & _ & Habs & ->).
  simpl.
  rewrite !Map_getKeys_set_absent
    by first [ exact Habs
             | rewrite (Map_containsKey_keys _ _ _ Hv); exact Habs
             | rewrite (Map_containsKey_keys _ _ _ Hc); exact Habs ].
  repeat (split; [reflexivity | ]).
  intros key Hkey. rewrite !Map_get_set_other by exact Hkey. auto.
Qed.

(** X13: an argument that is [null], or a reference to something that is
    not a scene object, is refused: on an initialized renderer [addObject]
    throws the illegal-object exception and changes nothing, no buffer is
    created and no identifier used. *)
Theorem addObject_illegal_object object s :
  all_live (this s) ->
  (forall l o, object = Some l -> heap s !! l <> Some (CObject o)) ->
  addObject env object s = (inl (X_exception "Fatal: Illegal object!"), s).
Proof.
  intros ([canvas Hc] & [gl Hg] & [cam Hm]) Hobj.
  unfold addObject. unfold_monad. rewrite Hc, Hg, Hm. simpl.
  destruct object as [l | ]; [ | reflexivity].
  specialize (Hobj l). simpl.
  destruct (heap s !! l) as [[o | | | ] | ]; try reflexivity.
  exfalso. eapply Hobj; reflexivity.
Qed.

End Registry.

Lemma reachable_run env cs s : reachable env s -> reachable env (snd (run env cs s)).
Proof.
  revert s. induction cs as [| c cs IH]; intros s Hs; [exact Hs | ].
  simpl. pose proof (reachable_exec env c s Hs) as H.
  destruct (exec env c s) as [r s1]. simpl in H.
  specialize (IH s1 H). destruct (run env cs s1) as [rs s2]. exact IH.
Qed.

Lemma exec_init_state env s : snd (exec env call_init s) = snd (init env s).
Proof.
  simpl. unfold returning, bind, ret. destruct (init env s) as [[e | []] s']; reflexivity.
Qed.

Lemma reachable_literal_state : reachable demo_env literal_state.
Proof.
  unfold literal_state. rewrite <- exec_init_state.
  apply reachable_exec, reachable_initial.
Qed.

Lemma reachable_populated_state : reachable demo_env populated_state.
Proof. apply reachable_run, reachable_literal_state. Qed.

Lemma registry_keys_invariant_witness :
  Map_getKeys (_objects (this populated_state)) = [0; 1; 2] /\
  Map_getKeys (_vertexBuffers (this populated_state)) = [0; 1; 2] /\
  Map_getKeys (_colorBuffers (this populated_state)) = [0; 1; 2].
Proof.
  destruct (registry_keys_invariant demo_env populated_state reachable_populated_state)
    as (H1 & H2 & H3 & _).
  rewrite H3, H2, H1. vm_compute. auto.
Defined.

Lemma addObject_failure_keeps_fields_witness :
  this (snd (addObject demo_env (Some 1%nat) populated_state)) = this populated_state.
Proof.
  apply (addObject_failure_keeps_fields demo_env (Some 1%nat) populated_state
           (X_exception "Fatal: Illegal object!") reachable_populated_state).
  vm_compute. reflexivity.
Defined.

Lemma addObject_appends_entry_witness :
  Map_getKeys (_objects (this (snd (addObject demo_env (Some 11%nat) populated_state)))) =
    Map_getKeys (_objects (this populated_state)) ++ [3].
Proof.
  destruct (addObject_appends_entry demo_env (Some 11%nat) populated_state 3
              reachable_populated_state) as [H _]; [vm_compute; reflexivity | exact H].
Defined.

Lemma addObject_illegal_object_witness :
  addObject demo_env (Some 1%nat) literal_state =
    (inl (X_exception "Fatal: Illegal object!"), literal_state).
Proof.
  apply addObject_illegal_object.
  - vm_compute. repeat split; eexists; reflexivity.
  - intros l o [= <-]. vm_compute. discriminate.
Defined.

(** ** render over the registry *)

Section RenderRegistry.

Variable env : Env.
Hypothesis Hgl : gl_returns env.

(** The loop draws the entry of every key, in the order of the keys, and
    ends by the iterator's exception. *)
Lemma render_loop_run keys s gl :
  _gl (this s) = Some gl ->
  (forall key, In key keys ->
     is_Some (Map_get (_objects (this s)) key) /\
     is_Some (Map_get (_vertexBuffers (this s)) key) /\
     is_Some (Map_get (_colorBuffers (this s)) key)) ->
  render_loop env keys s =
    (inl StopIteration,
     mk_state (this s) (heap s) (log s ++ flat_map (draw_events gl (this s)) keys)).
Proof.
  revert s. induction keys as [| key keys IH]; intros s Hg Hkeys.
  - simpl. unfold throw. rewrite app_nil_r. destruct s; reflexivity.
  - destruct (Hkeys key (or_introl eq_refl)) as ([l Ho] & [vb Hv] & [cb Hc]).
    simpl. unfold draw_events at 1. rewrite Hv, Hc.
    unfold bind at 1. unfold get_this at 1. unfold bind at 1.
    rewrite Ho.
    unfold_monad. simpl. rewrite Hv, Hc. simpl.
    repeat first
      [ rewrite Hg; simpl
      | match goal with
        | |- context [gl_reply env ?h ?g ?c] =>
          let v := fresh "v" in let H := fresh "H" in
          destruct (Hgl h g c) as [v H]; rewrite H; simpl
        end ].
    rewrite IH; simpl; [ | exact Hg | intros k Hk; apply Hkeys; now right].
    rewrite <- !app_assoc. reflexivity.
Qed.

End RenderRegistry.

Section RenderClaims.

Variable env : Env.

Lemma draw_events_length gl r key :
  is_Some (Map_get (_vertexBuffers r) key) ->
  is_Some (Map_get (_colorBuffers r) key) ->
  length (draw_events gl r key) = 5%nat.
Proof. intros [vb Hv] [cb Hc]. unfold draw_events. now rewrite Hv, Hc. Qed.

Lemma draw_events_total_length gl r keys :
  (forall key, In key keys ->
     is_Some (Map_get (_vertexBuffers r) key) /\
     is_Some (Map_get (_colorBuffers r) key)) ->
  length (flat_map (draw_events gl r) keys) = (5 * length keys)%nat.
Proof.
  induction keys as [| key keys IH]; intros H; [reflexivity | ].
  simpl. rewrite length_app, IH by (intros k Hk; apply H; now right).
  destruct (H key (or_introl eq_refl)) as [Hv Hc].
  rewrite draw_events_length by assumption. lia.
Qed.

(** X14: [render] draws the registry.  In every state a renderer can reach,
    initialized and with collaborators that answer, [render] returns
    normally, leaves the fields and the heap as they are, and issues after
    the clear and the uniforms, for each key of the registry in the order of
    insertion, the five calls of [draw_events]: the vertex buffer bound and
    described to the position attribute, the color buffer bound and
    described to the color attribute, and one draw of a triangle strip over
    the items of the vertex buffer; nothing else. *)
Theorem render_draws_registry s canvas gl cam :
  reachable env s ->
  gl_returns env -> camera_returns env ->
  live (this s) = (Some canvas, Some gl, Some cam) ->
  exists perspective view perspectiveLocation viewLocation,
    render env s =
      (inr tt,
       mk_state (this s) (heap s)
         (log s ++
          uniform_events gl cam (_shaderProgram (this s))
            perspectiveLocation viewLocation
            (matrix_flatten env perspective) (matrix_flatten env view) ++
          flat_map (draw_events gl (this s)) (Map_getKeys (_objects (this s))))) /\
    length (flat_map (draw_events gl (this s)) (Map_getKeys (_objects (this s)))) =
      (5 * length (_objects (this s)))%nat.
Proof.
  intros Hs Hgl Hcam Hlive.
  destruct (reachable_registry env s Hs) as [_ [Hv Hc]].
  assert (forall key, In key (Map_getKeys (_objects (this s))) ->
            is_Some (Map_get (_objects (this s)) key) /\
            is_Some (Map_get (_vertexBuffers (this s)) key) /\
            is_Some (Map_get (_colorBuffers (this s)) key)) as Hkeys.
  { intros key Hin. repeat split; apply Map_get_is_Some; congruence. }
  assert (length (flat_map (draw_events gl (this s)) (Map_getKeys (_objects (this s)))) =
            (5 * length (_objects (this s)))%nat) as Hlen.
  { rewrite draw_events_total_length by (intros key Hin; now apply Hkeys).
    unfold Map_getKeys. now rewrite length_map. }
  unfold live in Hlive. injection Hlive as Hcv Hg Hcm.
  unfold render, uniform_events. unfold_monad.
  rewrite Hcv, Hg, Hcm. simpl.
  repeat first
    [ rewrite Hg; simpl
    | rewrite Hcm; simpl
    | match goal with
      | |- context [gl_reply env ?h ?g ?c] =>
        let v := fresh "v" in let H := fresh "H" in
        destruct (Hgl h g c) as [v H]; rewrite H; simpl
      | |- context [camera_getPerspective env ?h ?c] =>
        let v := fresh "P" in let H := fresh "H" in
        destruct (Hcam h c) as [_ [v H]]; rewrite H; simpl
      | |- context [camera_getView env ?h ?c] =>
        let v := fresh "V" in let H := fresh "H" in
        destruct (Hcam h c) as [[v H] _]; rewrite H; simpl
      end ].
  rewrite (render_loop_run env Hgl _ _ gl) by (simpl; assumption).
  simpl. rewrite <- !app_assoc. simpl.
  do 4 eexists. split; [reflexivity | exact Hlen].
Qed.

(** Where an exception of the loop over the keys comes from: the iterator,
    the call logged last, or a buffer read of an entry that has none. *)
Lemma render_loop_thrown keys : forall s gl e,
  _gl (this s) = Some gl ->
  fst (render_loop env keys s) = inl e ->
  e = StopIteration \/
  rethrown env (log (snd (render_loop env keys s))) e \/
  (e = TypeError /\ buffer_missing (this s) keys).
Proof.
  induction keys as [| key keys IH]; intros s gl e Hgl; simpl.
  - intros [= <-]. now left.
  - destruct s as [[cn dm w ht bg ct cv g cm objs vbs cbs i vpa vca sp] h l].
    simpl in Hgl. subst g.
    unfold_monad. simpl.
    sym_exec;
      try (intros [= <-]; right; left;
           eexists _, _, _; split; [reflexivity | split; [eassumption | reflexivity]]);
      try (intros [= <-]; right; right; split; [reflexivity | ];
           exists key; split; [now left | ]; split; [rewrite ?Heqo; eauto | eauto]).
    all: intros E;
      match goal with
      | |- context [render_loop env _ ?s'] =>
        destruct (IH s' gl e eq_refl E) as [-> | [H | [-> (k & Hin & Hk)]]]
      end;
      [ now left | right; left; exact H
      | right; right; split; [reflexivity | exists k; split; [now right | exact Hk]] ].
Qed.

(** X19: [render] passes on what was thrown to it, as it was thrown.  When
    [render] throws on an initialized renderer, the call it logged last is a
    call on the context or the camera that was answered by throwing, and
    [render] throws that very error, from before the loop or through the
    [catch] of the loop alike, with no call issued after it; or else an entry
    of the registry has no vertex buffer or no color buffer, and the read of
    the missing buffer is a [TypeError].  (The errors of the collaborators
    are those of the model: errors with a message.) *)
Theorem render_rethrows_what_was_thrown s e :
  all_live (this s) ->
  fst (render env s) = inl e ->
  rethrown env (log (snd (render env s))) e \/
  (e = TypeError /\ buffer_missing (this s) (Map_getKeys (_objects (this s)))).
Proof.
  destruct s as [[cn dm w ht bg ct cv g cm objs vbs cbs i vpa vca sp] h l].
  intros ([canvas Hc] & [gl Hg] & [cam Hm]). simpl in *. subst.
  unfold render. unfold_monad. simpl.
  sym_exec;
    try (intros [= <-]; left;
         eexists _, _, _; split; [reflexivity | split; [eassumption | reflexivity]]).
  match goal with
  | |- context [render_loop env ?k ?s'] =>
    pose proof (render_loop_thrown k s' gl) as H;
    destruct (render_loop env k s') as [[e'' | []] s'']; simpl in *
  end.
  - destruct (bool_decide_reflect (e'' <> StopIteration)) as [Hne | Heq]; simpl.
    + intros [= <-].
      destruct (H e'' eq_refl eq_refl) as [-> | H']; [congruence | exact H'].
    + discriminate.
  - discriminate.
Qed.

End RenderClaims.

Lemma render_draws_registry_witness :
  exists perspective view perspectiveLocation viewLocation,
    render demo_env populated_state =
      (inr tt,
       mk_state (this populated_state) (heap populated_state)
         (log populated_state ++
          uniform_events 7%nat 3%nat (_shaderProgram (this populated_state))
            perspectiveLocation viewLocation
            (matrix_flatten demo_env perspective) (matrix_flatten demo_env view) ++
          flat_map (draw_events 7%nat (this populated_state))
            (Map_getKeys (_objects (this populated_state))))) /\
    length (flat_map (draw_events 7%nat (this populated_state))
              (Map_getKeys (_objects (this populated_state)))) =
      (5 * length (_objects (this populated_state)))%nat.
Proof.
  apply (render_draws_registry demo_env populated_state 1%nat 7%nat 3%nat).
  - exact reachable_populated_state.
  - exact demo_gl_returns.
  - exact demo_camera_returns.
  - vm_compute. reflexivity.
Defined.

Lemma render_rethrows_what_was_thrown_witness :
  rethrown lost_context_env
    (log (snd (render lost_context_env populated_state))) (Error "context lost") \/
  (Error "context lost" = TypeError /\
   buffer_missing (this populated_state)
     (Map_getKeys (_objects (this populated_state)))).
Proof.
  apply (render_rethrows_what_was_thrown lost_context_env populated_state
           (Error "context lost")).
  - vm_compute. repeat split; eexists; reflexivity.
  - vm_compute. reflexivity.
Defined.

(** ** Who writes what *)

Section Frames.

Variable env : Env.

(** An invariant of a call, from the invariants of the methods. *)
Ltac frame_of_invariants Hlog Hheap :=
  simpl; unfold returning;
  try (apply inv_bind; [ | intros ?; apply inv_ret ]);
  first [ apply inv_setWidth | apply inv_setHeight | apply inv_setBackgroundColor
        | apply inv_getContainer | apply inv_setContainer | apply inv_setContainerById
        | apply inv_init | apply inv_addShaders | apply inv_addObject | apply inv_render
        | apply inv_convertWorldToDisplayCoordinates | (intros ? H; exact H) ];
  try (intros ?; apply inv_addObject_colors);
  first [ exact Hlog | exact Hheap
        | solve [intros ? ? ? H; exact H]
        | solve [intros ? ? H; exact H]
        | solve [intros ? H; exact H] ].

Lemma exec_keeps_shader_fields c s :
  (forall f v, c <> call_addShaders f v) ->
  shader_fields (this (snd (exec env c s))) = shader_fields (this s).
Proof.
  intros Hc.
  set (P := fun s' : State => shader_fields (this s') = shader_fields (this s)).
  assert (ignores_log P) as Hlog by (intros ? ? H; exact H).
  assert (ignores_heap P) as Hheap by (intros ? ? H; exact H).
  assert (inv P (exec env c)) as Hinv
    by (destruct c; try (exfalso; eapply Hc; reflexivity);
        frame_of_invariants Hlog Hheap).
  apply Hinv. reflexivity.
Qed.

Lemma exec_keeps_settings c s :
  (forall v, c <> call_setWidth v) -> (forall v, c <> call_setHeight v) ->
  (forall v, c <> call_setBackgroundColor v) ->
  (_width (this (snd (exec env c s))), _height (this (snd (exec env c s))),
   _backgroundColor (this (snd (exec env c s)))) =
  (_width (this s), _height (this s), _backgroundColor (this s)).
Proof.
  intros Hw Hh Hb.
  set (P := fun s' : State =>
    (_width (this s'), _height (this s'), _backgroundColor (this s')) =
    (_width (this s), _height (this s), _backgroundColor (this s))).
  assert (ignores_log P) as Hlog by (intros ? ? H; exact H).
  assert (ignores_heap P) as Hheap by (intros ? ? H; exact H).
  assert (inv P (exec env c)) as Hinv
    by (destruct c;
        try (exfalso;
             first [eapply Hw; reflexivity | eapply Hh; reflexivity
                   | eapply Hb; reflexivity]);
        frame_of_invariants Hlog Hheap).
  apply Hinv. reflexivity.
Qed.

Lemma exec_keeps_heap c s :
  (forall object, c <> call_addObject object) ->
  (forall f, c <> caller_writes f) ->
  heap (snd (exec env c s)) = heap s.
Proof.
  intros Ha Hw.
  set (P := fun s' : State => heap s' = heap s).
  assert (ignores_log P) as Hlog by (intros ? ? H; exact H).
  assert (inv P (exec env c)) as Hinv.
  { destruct c;
      try (exfalso; first [eapply Ha; reflexivity | eapply Hw; reflexivity]);
      simpl; unfold returning;
      try (apply inv_bind; [ | intros ?; apply inv_ret ]);
      first [ apply inv_setWidth | apply inv_setHeight | apply inv_setBackgroundColor
            | apply inv_getContainer | apply inv_setContainer
            | apply inv_setContainerById | apply inv_init | apply inv_addShaders
            | apply inv_render | apply inv_convertWorldToDisplayCoordinates ];
      first [ exact Hlog
            | solve [intros ? ? ? H; exact H]
            | solve [intros ? ? H; exact H]
            | solve [intros ? H; exact H] ]. }
  apply Hinv. reflexivity.
Qed.

(** X15: each group of fields has its writers.  Whatever a call does, and
    whether it returns or throws: the canvas, the context and the camera
    change in [init] only; the counter and the three maps of the registry in
    [addObject] only; the attribute locations and the program in
    [addShaders] only; the width, the height and the background color in
    their setters only. *)
Theorem fields_have_their_writers c s :
  (c <> call_init -> live (this (snd (exec env c s))) = live (this s)) /\
  ((forall object, c <> call_addObject object) ->
   registry (this (snd (exec env c s))) = registry (this s)) /\
  ((forall f v, c <> call_addShaders f v) ->
   shader_fields (this (snd (exec env c s))) = shader_fields (this s)) /\
  ((forall v, c <> call_setWidth v) -> (forall v, c <> call_setHeight v) ->
   (forall v, c <> call_setBackgroundColor v) ->
   (_width (this (snd (exec env c s))), _height (this (snd (exec env c s))),
    _backgroundColor (this (snd (exec env c s)))) =
   (_width (this s), _height (this s), _backgroundColor (this s))).
Proof.
  split; [apply exec_keeps_live | ].
  split; [apply exec_keeps_buffers | ].
  split; [apply exec_keeps_shader_fields | apply exec_keeps_settings].
Qed.

(** X16: the heap of the caller's objects is written by [addObject] alone
    among the methods (and there only to add a container, see C6): every
    other method leaves the heap exactly as it found it, whether it returns
    or throws. *)
Theorem methods_leave_heap c s :
  (forall object, c <> call_addObject object) ->
  (forall f, c <> caller_writes f) ->
  heap (snd (exec env c s)) = heap s.
Proof. apply exec_keeps_heap. Qed.

End Frames.

Lemma fields_have_their_writers_witness :
  live (this (snd (exec demo_env call_render populated_state))) =
    live (this populated_state) /\
  registry (this (snd (exec demo_env call_render populated_state))) =
    registry (this populated_state).
Proof.
  destruct (fields_have_their_writers demo_env call_render populated_state)
    as (H1 & H2 & _).
  split; [apply H1 | apply H2]; discriminate.
Defined.

Lemma methods_leave_heap_witness :
  heap (snd (exec demo_env call_render populated_state)) = heap populated_state.
Proof. apply methods_leave_heap; discriminate. Defined.

(** ** convertWorldToDisplayCoordinates, further *)

Section Convert.

Variable env : Env.

(** X17: [convertWorldToDisplayCoordinates] has no test of initialization:
    on a renderer without camera it throws a [TypeError], not the
    not-initialized exception of [addObject] and [render], and does nothing
    else. *)
Theorem convertWorldToDisplayCoordinates_without_camera s vector :
  _camera (this s) = None ->
  convertWorldToDisplayCoordinates env vector s = (inl TypeError, s) /\
  ~ NotInitializedError TypeError.
Proof.
  intros H. split.
  - unfold convertWorldToDisplayCoordinates. unfold_monad. rewrite H. reflexivity.
  - intros [H' | H']; discriminate H'.
Qed.

(** X18: what [convertWorldToDisplayCoordinates] does on a renderer with a
    camera that answers with matrices of four rows: it asks the camera for
    the view and then for the projection, changes neither field nor heap,
    and returns the pixel of the vector transformed by the identity matrix;
    neither of the two matrices of the camera enters the result. *)
Theorem convertWorldToDisplayCoordinates_run s cam view perspective vector :
  _camera (this s) = Some cam ->
  camera_getView env (log s) cam = Returns view ->
  camera_getPerspective env (log s ++ [CameraGetView cam]) cam = Returns perspective ->
  Matrix_height view = 4%nat ->
  Matrix_height perspective = 4%nat ->
  convertWorldToDisplayCoordinates env vector s =
    (inr (to_pixels (matrix_multiplyByVector env (createIdentityMatrix 4) vector)
            (_width (this s)) (_height (this s))),
     mk_state (this s) (heap s)
       (log s ++ [CameraGetView cam; CameraGetPerspective cam])).
Proof.
  intros Hcam Hview Hpersp Hv Hp.
  unfold convertWorldToDisplayCoordinates, Matrix_multiply. unfold_monad.
  rewrite Hcam. simpl. rewrite Hview. simpl. rewrite Hcam. simpl.
  rewrite Hpersp. simpl.
  change (Matrix_width (createIdentityMatrix 4)) with 4%nat.
  rewrite Hv, Hp. simpl. rewrite <- app_assoc. reflexivity.
Qed.

End Convert.

Lemma convertWorldToDisplayCoordinates_without_camera_witness :
  convertWorldToDisplayCoordinates demo_env (goog_math_Vec3 0 0 0)
    (initial 100 100 demo_heap) = (inl TypeError, initial 100 100 demo_heap) /\
  ~ NotInitializedError TypeError.
Proof. apply convertWorldToDisplayCoordinates_without_camera. reflexivity. Defined.

Lemma convertWorldToDisplayCoordinates_run_witness :
  convertWorldToDisplayCoordinates demo_env (goog_math_Vec3 0 0 0) demo_state =
    (inr (to_pixels
            (matrix_multiplyByVector demo_env (createIdentityMatrix 4)
               (goog_math_Vec3 0 0 0))
            (_width (this demo_state)) (_height (this demo_state))),
     mk_state (this demo_state) (heap demo_state)
       (log demo_state ++ [CameraGetView 3%nat; CameraGetPerspective 3%nat])).
Proof.
  apply (convertWorldToDisplayCoordinates_run demo_env demo_state 3%nat half_view
           (createIdentityMatrix 4)); reflexivity.
Defined.
